(** * ctf_converter: the [Converter] class of [src/ctf_converter.py]

    A shallow embedding of the converter between the decimal, text, hex and
    binary representations of byte values, and of its XOR operations,
    followed by the properties stated about it.

    Conventions of the embedding.
    - A Python [int] is a [Z]; a [List[int]] is a [list Z]; a [List[str]] is
      a [list string].
    - A Python [str] is a [string] of the standard library: a sequence of
      characters with code points 0..255, the text domain of the converter
      ([chr] of a byte value).
    - A call either returns a value or raises: [result A] is [Ok a] or
      [Raise e], with [e] the exception ([ConversionError] and its message,
      or one of the built-in exceptions the methods can meet).
    - A [for] loop is a fold over the sequence it iterates, threading the
      variables it assigns. *)

From Stdlib Require Import ZArith List String Ascii Bool Lia.
From Stdlib Require HexString DecimalString.
Import ListNotations.

#[local] Open Scope string_scope.
#[local] Open Scope Z_scope.

(* ================================================================== *)
(** * Python values, exceptions and built-ins *)
(* ================================================================== *)

Module Py.

(** Exceptions: the class [ConversionError] of the module (with its
    message) and the built-in ones. [BeyondLatin1] is no exception of
    Python: it marks the one place where Python returns a value that this
    model of [str] cannot hold, [chr] of a code point above 255. *)
Inductive exn : Type :=
| ConversionError (msg : string)
| ValueError
| IndexError
| TypeError
| BeyondLatin1 (code_point : Z).

Inductive result (A : Type) : Type :=
| Ok (a : A)
| Raise (e : exn).

Arguments Ok {A} a.
Arguments Raise {A} e.

Definition bind {A B : Type} (c : result A) (k : A -> result B) : result B :=
  match c with
  | Ok a => k a
  | Raise e => Raise e
  end.

(** [try: c  except ValueError: handler]. *)
Definition try_except_ValueError {A : Type} (c handler : result A) : result A :=
  match c with
  | Raise ValueError => handler
  | _ => c
  end.

(** [for x in xs: s = body s x], where the body may raise. *)
Fixpoint for_in {A S : Type} (xs : list A) (body : S -> A -> result S) (s : S)
  : result S :=
  match xs with
  | [] => Ok s
  | x :: xs' => bind (body s x) (for_in xs' body)
  end.

(** [range(start, stop, step)] for a positive [step]. *)
Definition range (start stop step : nat) : list nat :=
  map (fun k => (start + k * step)%nat)
      (seq 0 (Nat.div (stop - start + (step - 1)) step)).

(** The characters of a string, in order (iteration over a [str]). *)
Definition chars (s : string) : list ascii := list_ascii_of_string s.

(** [s[i]]: [IndexError] past the end. *)
Definition index (s : string) (i : nat) : result ascii :=
  match String.get i s with
  | Some c => Ok c
  | None => Raise IndexError
  end.

(** [l[i]] on a list. *)
Definition item {A : Type} (l : list A) (i : nat) : result A :=
  match nth_error l i with
  | Some x => Ok x
  | None => Raise IndexError
  end.

(** [s[i:j]] for [0 <= i <= j]: the slice stops at the end of [s]. *)
Definition slice (s : string) (i j : nat) : string := substring i (j - i) s.

(** [s[i:]]. *)
Definition slice_from (s : string) (i : nat) : string :=
  substring i (String.length s - i) s.

(** [s.startswith(p)]. *)
Definition startswith (s p : string) : bool := String.prefix p s.

(** [c in chars] for a single character [c]. *)
Definition char_in (c : ascii) (set : string) : bool :=
  existsb (Ascii.eqb c) (chars set).

(** [s.strip(set)]: the characters of [set] removed from both ends. *)
Fixpoint lstrip (set s : string) : string :=
  match s with
  | EmptyString => EmptyString
  | String c s' => if char_in c set then lstrip set s' else s
  end.

Fixpoint rstrip (set s : string) : string :=
  match s with
  | EmptyString => EmptyString
  | String c s' =>
      match rstrip set s' with
      | EmptyString => if char_in c set then EmptyString else String c EmptyString
      | r => String c r
      end
  end.

Definition strip (set s : string) : string := rstrip set (lstrip set s).

(** [ord(c)] and [chr(i)]. [chr] raises [ValueError] outside the code
    points 0..0x10FFFF. The code points above 255 have no character in this
    model of [str]; the methods of [Converter] reach [chr] only behind a
    check of the range 0..255 (a direct call of [d_to_t] apart). *)
Definition ord (c : ascii) : Z := Z.of_N (N_of_ascii c).

Definition chr (i : Z) : result string :=
  if (0 <=? i) && (i <=? 255)
  then Ok (String (ascii_of_N (Z.to_N i)) EmptyString)
  else if (0 <=? i) && (i <=? 1114111)
       then Raise (BeyondLatin1 i)
       else Raise ValueError.

(** [str(i)], also the [{i}] of an f-string: the decimal numeral of [i].
    CPython (3.11 and later, and the security releases of 3.7 to 3.10)
    refuses to convert an [int] of more than 4300 decimal digits, the
    default of [sys.get_int_max_str_digits()], and raises [ValueError]: that
    is an [int] of absolute value [10 ^ 4300] or more, the sign not being
    counted. *)
Definition decimal_numeral (i : Z) : string :=
  DecimalString.NilZero.string_of_int (Z.to_int i).

Definition int_max_str_digits : Z := 4300.

Definition max_str_bound : Z := Eval vm_compute in 10 ^ int_max_str_digits.

Definition str (i : Z) : result string :=
  if Z.abs i >=? max_str_bound then Raise ValueError
  else Ok (decimal_numeral i).

Arguments str : simpl never.

(** [hex(i)]: ["0x"] and the lowercase digits, ["-0x"] for a negative. *)
Definition hex (i : Z) : string := HexString.of_Z i.

(** ** [int(s, 16)]

    The parser of CPython on a [str] of code points 0..255: white space is
    skipped at both ends, one sign may follow, then for base 16 an optional
    ["0x"] or ["0X"] (and one underscore after it), then the digits, where
    single underscores may stand between two digits. Anything else is a
    [ValueError]. Beyond code point 255, which the strings here do not
    have, [int] also reads the Unicode decimal digits as digits and the
    Unicode white space as white space. *)

(** White space for [int]: tab, line feed, vertical tab, form feed,
    carriage return, space, and in a non-ASCII string NEL (0x85) and the
    no-break space (0xA0). The separators 0x1C to 0x1F, white space for
    [str.isspace], are none for [int]. *)
Definition int_space (c : ascii) : bool :=
  let n := N_of_ascii c in
  ((9 <=? n) && (n <=? 13) || (n =? 32) || (n =? 133) || (n =? 160))%N.

(** The value of a digit in base 16, if it is one. *)
Definition digit16 (c : ascii) : option Z :=
  let n := Z.of_N (N_of_ascii c) in
  if (48 <=? n) && (n <=? 57) then Some (n - 48)        (* 0-9 *)
  else if (97 <=? n) && (n <=? 102) then Some (n - 87)  (* a-f *)
  else if (65 <=? n) && (n <=? 70) then Some (n - 55)   (* A-F *)
  else None.

Definition is_digit16 (c : ascii) : bool :=
  match digit16 c with Some _ => true | None => false end.

Definition underscore : ascii := "_"%char.

Fixpoint skip_space (s : string) : string :=
  match s with
  | String c s' => if int_space c then skip_space s' else s
  | EmptyString => EmptyString
  end.

Definition all_space (s : string) : bool := forallb int_space (chars s).

(** The sign: [(negative, rest)]. *)
Definition read_sign (s : string) : bool * string :=
  match s with
  | String c s' =>
      if Ascii.eqb c "+" then (false, s')
      else if Ascii.eqb c "-" then (true, s')
      else (false, s)
  | EmptyString => (false, s)
  end.

(** The prefix of base 16. *)
Definition skip_prefix16 (s : string) : string :=
  match s with
  | String z (String x s') =>
      if (Ascii.eqb z "0" && (Ascii.eqb x "x" || Ascii.eqb x "X"))%bool
      then match s' with
           | String c s'' => if Ascii.eqb c underscore then s'' else s'
           | EmptyString => s'
           end
      else s
  | _ => s
  end.

(** The digits: [prev] tells that the previous character was an underscore,
    [acc] is the value read so far. The scan stops at the first character
    that is neither a digit nor an underscore and returns the value with the
    rest; a doubled or a trailing underscore is an error. *)
Fixpoint scan_digits (s : string) (prev : bool) (acc : Z) : option (Z * string) :=
  match s with
  | String c s' =>
      if Ascii.eqb c underscore
      then if prev then None else scan_digits s' true acc
      else match digit16 c with
           | Some v => scan_digits s' false (16 * acc + v)
           | None => if prev then None else Some (acc, s)
           end
  | EmptyString => if prev then None else Some (acc, s)
  end.

Definition int16 (s : string) : result Z :=
  let '(negative, s2) := read_sign (skip_space s) in
  let s3 := skip_prefix16 s2 in
  match s3 with
  | String c _ =>
      if is_digit16 c   (* no leading underscore, at least one digit *)
      then match scan_digits s3 false 0 with
           | Some (v, rest) =>
               if all_space rest
               then Ok (if negative then - v else v)
               else Raise ValueError
           | None => Raise ValueError
           end
      else Raise ValueError
  | EmptyString => Raise ValueError
  end.

(** [int(c)] for a single character [c] (base 10): its value when it is a
    decimal digit, [ValueError] otherwise. *)
Definition int_char (c : ascii) : result Z :=
  let n := Z.of_N (N_of_ascii c) in
  if (48 <=? n) && (n <=? 57) then Ok (n - 48) else Raise ValueError.

End Py.

Export Py.

Notation "x <- c ;; k" := (bind c (fun x => k))
  (at level 61, c at next level, right associativity).

(* ================================================================== *)
(** * The class [Converter] *)
(* ================================================================== *)

Module Converter.

(** What [decimal_to_hex] takes and [hex_to_decimal] returns: a list of
    values, or one number in the single-value mode. *)
Inductive decimals : Type :=
| DecList (decimal_list : list Z)
| DecInt (decimal : Z).

(** ** Single values *)

(** [d_to_b]: eight rounds over [(mult, binary_string, remaining)]. *)
Definition d_to_b_round (st : Z * string * Z) (i : nat) : Z * string * Z :=
  let '(mult, binary_string, remaining) := st in
  if remaining - mult >=? 0
  then (mult / 2, binary_string ++ "1", remaining - mult)
  else (mult / 2, binary_string ++ "0", remaining).

Definition d_to_b (decimal : Z) : string :=
  let '(_, binary_string, _) :=
    fold_left d_to_b_round (range 0 8 1) (128, EmptyString, decimal) in
  binary_string.

Definition d_to_t (decimal : Z) : result string := chr decimal.

Definition d_to_h (decimal : Z) : string :=
  let hex_char := slice_from (hex decimal) 2 in
  if Nat.eqb (String.length hex_char) 1 then "0" ++ hex_char else hex_char.

(** [b_to_d]: over the characters from the last to the first, with
    [(mult, decimal)]. *)
Definition b_to_d_round (st : Z * Z) (i : ascii) : Z * Z :=
  let '(mult, decimal) := st in
  if Ascii.eqb i "1" then (mult * 2, decimal + mult) else (mult * 2, decimal).

Definition b_to_d (binary_string : string) : Z :=
  snd (fold_left b_to_d_round (rev (chars binary_string)) (1, 0)).

Definition t_to_d (text : ascii) : Z := ord text.

Definition h_to_d (hex_char : string) : result Z := int16 hex_char.

(** [xor_b]: eight positions; [binary_a[i]] and [binary_b[i]] raise
    [IndexError] on a short string and [int] raises [ValueError] on a
    character that is no digit. *)
Definition xor_b (binary_a binary_b : string) : result string :=
  for_in (range 0 8 1)
    (fun binary_c i =>
       ca <- index binary_a i ;;
       xa <- int_char ca ;;
       cb <- index binary_b i ;;
       xb <- int_char cb ;;
       let x := Z.lxor xa xb in
       digit <- str x ;;
       Ok (binary_c ++ digit))
    EmptyString.

(** ** Validation *)

(** The message is an f-string: [str] of the value runs, and may raise,
    before the [ConversionError] is made. *)
Fixpoint _validate_decimal_range (decimal_list : list Z) : result unit :=
  match decimal_list with
  | [] => Ok tt
  | decimal :: rest =>
      if (decimal <? 0) || (decimal >? 255)
      then
        text <- str decimal ;;
        Raise (ConversionError
                 ("Decimal value must be between 0-255: " ++ text))
      else _validate_decimal_range rest
  end.

(** The test of the binary operations on one element:
    [len(binary) != 8 or not all(bit in "01" for bit in binary)]. *)
Definition malformed_binary (binary : string) : bool :=
  negb (Nat.eqb (String.length binary) 8)
  || negb (forallb (fun bit => char_in bit "01") (chars binary)).

(** The first loop of the three binary operations. *)
Fixpoint validate_binary_list (binary_list : list string) : result unit :=
  match binary_list with
  | [] => Ok tt
  | binary :: rest =>
      if malformed_binary binary
      then Raise (ConversionError
                    ("Binary string must be 8 bits with only 0s and 1s: '"
                       ++ binary ++ "'"))
      else validate_binary_list rest
  end.

(** ** From decimal *)

Definition decimal_to_text (decimal_list : list Z) : result string :=
  _ <- _validate_decimal_range decimal_list ;;
  for_in decimal_list
    (fun text i => c <- d_to_t i ;; Ok (text ++ c)) EmptyString.

Definition decimal_to_binary (decimal_list : list Z) : result (list string) :=
  _ <- _validate_decimal_range decimal_list ;;
  Ok (fold_left (fun binary_list i => (binary_list ++ [d_to_b i])%list) decimal_list []).

(** With [as_single_value] the argument is one number; a list there, and a
    number in the default mode, is a [TypeError] ([hex] of a list, iteration
    over an [int]). *)
Definition decimal_to_hex (decimal_list : decimals) (as_single_value : bool)
  : result string :=
  if as_single_value
  then match decimal_list with
       | DecInt decimal => Ok (d_to_h decimal)
       | DecList _ => Raise TypeError
       end
  else match decimal_list with
       | DecList decimal_list =>
           _ <- _validate_decimal_range decimal_list ;;
           Ok (fold_left (fun hex_string i => hex_string ++ d_to_h i)
                 decimal_list EmptyString)
       | DecInt _ => Raise TypeError
       end.

(** ** From text *)

Definition text_to_decimal (text : string) : list Z :=
  let text := strip (String "010" EmptyString) text in
  fold_left (fun decimal_list i => (decimal_list ++ [t_to_d i])%list) (chars text) [].

Definition text_to_hex (text : string) : string :=
  fold_left (fun hex_string i =>
               let temp_decimal := t_to_d i in
               hex_string ++ d_to_h temp_decimal)
    (chars text) EmptyString.

Definition text_to_binary (text : string) : list string :=
  fold_left (fun binary_list i =>
               let decimal := t_to_d i in
               (binary_list ++ [d_to_b decimal])%list)
    (chars text) [].

(** ** From hex *)

(** [hex_string[2:]] when the string starts with ["0x"]. *)
Definition strip_0x (hex_string : string) : string :=
  if startswith hex_string "0x" then slice_from hex_string 2 else hex_string.

(** [[hex_string[i:i+2] for i in range(0, len(hex_string), 2)]]. *)
Definition hex_pairs (hex_string : string) : list string :=
  map (fun i => slice hex_string i (i + 2))
      (range 0 (String.length hex_string) 2).

Definition invalid_hex (hex_string : string) : exn :=
  ConversionError ("Invalid hex string: '" ++ hex_string ++ "'").

Definition hex_out_of_range (pair : string) : exn :=
  ConversionError ("Hex value must convert to 0-255: '" ++ pair ++ "'").

Definition hex_to_decimal (hex_string : string) (as_single_value : bool)
  : result decimals :=
  let hex_string := strip_0x hex_string in
  try_except_ValueError
    (if as_single_value
     then n <- int16 hex_string ;; Ok (DecInt n)
     else
       let hex_list := hex_pairs hex_string in
       decimal_list <-
         for_in hex_list
           (fun decimal_list i => n <- int16 i ;; Ok (decimal_list ++ [n])%list) [] ;;
       Ok (DecList decimal_list))
    (Raise (invalid_hex hex_string)).

Definition hex_to_text (hex_string : string) : result string :=
  if Nat.eqb (String.length hex_string) 0 then Ok EmptyString
  else
    let hex_string := strip_0x hex_string in
    try_except_ValueError
      (let hex_list := hex_pairs hex_string in
       for_in hex_list
         (fun text i =>
            temp_decimal <- int16 i ;;
            if (temp_decimal <? 0) || (temp_decimal >? 255)
            then Raise (hex_out_of_range i)
            else c <- chr temp_decimal ;; Ok (text ++ c))
         EmptyString)
      (Raise (invalid_hex hex_string)).

Definition hex_to_binary (hex_string : string) : result (list string) :=
  let hex_string := strip_0x hex_string in
  try_except_ValueError
    (let hex_list := hex_pairs hex_string in
     for_in hex_list
       (fun binary_list hex_pair =>
          decimal <- int16 hex_pair ;;
          if (decimal <? 0) || (decimal >? 255)
          then Raise (hex_out_of_range hex_pair)
          else Ok (binary_list ++ [d_to_b decimal])%list)
       [])
    (Raise (invalid_hex hex_string)).

(** ** From binary *)

Definition binary_to_hex (binary_list : list string) : result string :=
  _ <- validate_binary_list binary_list ;;
  Ok (fold_left (fun hex_string binary =>
                   let decimal := b_to_d binary in
                   hex_string ++ d_to_h decimal)
        binary_list EmptyString).

Definition binary_to_text (binary_list : list string) : result string :=
  _ <- validate_binary_list binary_list ;;
  for_in binary_list
    (fun text i =>
       let decimal := b_to_d i in
       c <- d_to_t decimal ;; Ok (text ++ c))
    EmptyString.

Definition binary_to_decimal (binary_list : list string) : result (list Z) :=
  _ <- validate_binary_list binary_list ;;
  Ok (fold_left (fun decimal_list i => (decimal_list ++ [b_to_d i])%list) binary_list []).

(** ** XOR *)

Definition xor_text (text_a text_b : string) : result string :=
  let binary_list_a := text_to_binary text_a in
  let binary_list_b := text_to_binary text_b in
  binary_list_c <-
    for_in (range 0 (Nat.min (List.length binary_list_a)
                             (List.length binary_list_b)) 1)
      (fun binary_list_c i =>
         a <- item binary_list_a i ;;
         b <- item binary_list_b i ;;
         c <- xor_b a b ;;
         Ok (binary_list_c ++ [c])%list)
      [] ;;
  binary_to_text binary_list_c.

Definition xor_decimals (decimal_list_a decimal_list_b : list Z)
  : result (list Z) :=
  _ <- _validate_decimal_range decimal_list_a ;;
  _ <- _validate_decimal_range decimal_list_b ;;
  for_in (range 0 (Nat.min (List.length decimal_list_a)
                           (List.length decimal_list_b)) 1)
    (fun xored_decs i =>
       a <- item decimal_list_a i ;;
       b <- item decimal_list_b i ;;
       let binary_a := d_to_b a in
       let binary_b := d_to_b b in
       xored_binary <- xor_b binary_a binary_b ;;
       Ok (xored_decs ++ [b_to_d xored_binary])%list)
    [].

End Converter.

Export Converter.

(* ================================================================== *)
(** * Strings, loops and the byte domain *)
(* ================================================================== *)

Section StringFacts.

Lemma append_nil_r (s : string) : s ++ EmptyString = s.
Proof. induction s as [|c s IH]; simpl; [reflexivity | now rewrite IH]. Qed.

Lemma append_assoc (s t u : string) : (s ++ t) ++ u = s ++ (t ++ u).
Proof. induction s as [|c s IH]; simpl; [reflexivity | now rewrite IH]. Qed.

Lemma chars_app (s t : string) : chars (s ++ t) = (chars s ++ chars t)%list.
Proof. induction s as [|c s IH]; simpl; [reflexivity | now rewrite <- IH]. Qed.

Lemma length_chars (s : string) : List.length (chars s) = String.length s.
Proof. induction s as [|c s IH]; simpl; [reflexivity | now rewrite <- IH]. Qed.

Lemma substring_none (s : string) : substring 0 0 s = EmptyString.
Proof. destruct s; reflexivity. Qed.

Lemma substring_all (s : string) : substring 0 (String.length s) s = s.
Proof. induction s as [|c s IH]; simpl; [reflexivity | now rewrite IH]. Qed.

End StringFacts.

Section LoopFacts.

Context {A B : Type}.

(** A loop that appends one element per round builds a [map]. *)
Lemma fold_left_snoc (f : A -> B) (xs : list A) (acc : list B) :
  fold_left (fun acc x => (acc ++ [f x])%list) xs acc = (acc ++ map f xs)%list.
Proof.
  revert acc; induction xs as [|x xs IH]; intros acc; simpl.
  - now rewrite app_nil_r.
  - rewrite IH, <- app_assoc. reflexivity.
Qed.


(** A loop raises as soon as one round raises whatever the state; the
    exception is one the body can raise. *)
Lemma for_in_raises {S : Type} (P : exn -> Prop) (body : S -> A -> result S)
      (xs : list A) (s : S) :
  (forall s x e, body s x = Raise e -> P e) ->
  (exists x, In x xs /\ forall s, exists e, body s x = Raise e) ->
  exists e, for_in xs body s = Raise e /\ P e.
Proof.
  intros HP [x [Hin Hx]]. revert s.
  induction xs as [|y xs IH]; intros s; [destruct Hin|].
  simpl. destruct (body s y) as [s'|e] eqn:Hy.
  - simpl. destruct Hin as [->|Hin].
    + destruct (Hx s) as [e He]. congruence.
    + apply IH, Hin.
  - simpl. exists e. split; [reflexivity | eapply HP, Hy].
Qed.

End LoopFacts.

(** [range(0, n, 1)] counts from 0 to [n - 1]. *)
Lemma range_step1 (n : nat) : range 0 n 1 = seq 0 n.
Proof.
  unfold range. rewrite Nat.sub_0_r, Nat.add_0_r, Nat.div_1_r.
  rewrite <- (map_id (seq 0 n)) at 2. apply map_ext.
  intros k. simpl. lia.
Qed.

(** ** The byte domain, enumerated *)

Definition bytes : list Z := map Z.of_nat (seq 0 256).

Lemma in_bytes (d : Z) : 0 <= d <= 255 -> In d bytes.
Proof.
  intros H. unfold bytes. rewrite <- (Z2Nat.id d) by lia.
  apply in_map, in_seq. lia.
Qed.

(** A decidable property checked on the 256 byte values holds of each. *)
Lemma forall_bytes (P : Z -> bool) :
  forallb P bytes = true -> forall d, 0 <= d <= 255 -> P d = true.
Proof.
  intros H d Hd. rewrite forallb_forall in H. apply H, in_bytes, Hd.
Qed.

Definition all_ascii : list ascii := map ascii_of_nat (seq 0 256).

Lemma in_all_ascii (c : ascii) : In c all_ascii.
Proof.
  unfold all_ascii. rewrite <- (ascii_nat_embedding c).
  apply in_map, in_seq. pose proof (nat_ascii_bounded c). lia.
Qed.

Lemma forall_ascii (P : ascii -> bool) :
  forallb P all_ascii = true -> forall c, P c = true.
Proof.
  intros H c. rewrite forallb_forall in H. apply H, in_all_ascii.
Qed.

Definition in_range (d : Z) : bool := (0 <=? d) && (d <=? 255).

Lemma in_range_iff (d : Z) : in_range d = true <-> 0 <= d <= 255.
Proof. unfold in_range. rewrite andb_true_iff, !Z.leb_le. reflexivity. Qed.

(* ================================================================== *)
(** * Round trips of a byte value *)
(* ================================================================== *)

Definition round_trip_bits_hex (d : Z) : bool :=
  (b_to_d (d_to_b d) =? d)
  && match h_to_d (d_to_h d) with
     | Ok n => n =? d
     | Raise _ => false
     end.

Lemma round_trip_bits_hex_all : forallb round_trip_bits_hex bytes = true.
Proof. vm_compute. reflexivity. Qed.

(** C1. For every integer [d] in 0..255, the binary string of [d] read back
    with [b_to_d] is [d], and the hex string of [d] parsed in base 16 (by
    [h_to_d]) is [d]: both encodings lose nothing on the byte domain. *)
Theorem byte_binary_hex_round_trip (d : Z) :
  0 <= d <= 255 ->
  b_to_d (d_to_b d) = d /\ h_to_d (d_to_h d) = Ok d.
Proof.
  intros Hd.
  pose proof (forall_bytes _ round_trip_bits_hex_all d Hd) as H.
  unfold round_trip_bits_hex in H.
  apply andb_true_iff in H. destruct H as [Hb Hh].
  split; [now apply Z.eqb_eq|].
  destruct (h_to_d (d_to_h d)) as [n|e]; [|discriminate].
  apply Z.eqb_eq in Hh. now subst.
Qed.

Lemma byte_binary_hex_round_trip_witness :
  b_to_d (d_to_b 171) = 171 /\ h_to_d (d_to_h 171) = Ok 171.
Proof. apply (byte_binary_hex_round_trip 171). lia. Defined.

(** The text round trip of one value, as a program:
    [text_to_decimal(decimal_to_text([d]))]. *)
Definition text_round_trip (d : Z) : result (list Z) :=
  text <- decimal_to_text [d] ;; Ok (text_to_decimal text).

Definition text_round_trip_ok (d : Z) : bool :=
  (d =? 10)
  || match text_round_trip d with
     | Ok [d'] => d' =? d
     | _ => false
     end.

Lemma text_round_trip_all : forallb text_round_trip_ok bytes = true.
Proof. vm_compute. reflexivity. Qed.

(** C2, as the code has it. For every integer [d] in 0..255 other than 10
    (the line feed), [text_to_decimal(decimal_to_text([d]))] is [[d]]. *)
Theorem text_round_trip_except_newline (d : Z) :
  0 <= d <= 255 -> d <> 10 ->
  text_round_trip d = Ok [d].
Proof.
  intros Hd Hnl.
  pose proof (forall_bytes _ text_round_trip_all d Hd) as H.
  unfold text_round_trip_ok in H.
  apply orb_true_iff in H. destruct H as [H|H].
  - apply Z.eqb_eq in H. contradiction.
  - destruct (text_round_trip d) as [[|d' [|? ?]]|e]; try discriminate.
    apply Z.eqb_eq in H. now subst.
Qed.

Lemma text_round_trip_except_newline_witness : text_round_trip 65 = Ok [65].
Proof. apply (text_round_trip_except_newline 65); lia. Defined.

(** C2 fails at the line feed: [decimal_to_text([10])] is the string of one
    line feed, which [text_to_decimal] strips, so the round trip returns the
    empty list and not [[10]]. *)
Lemma text_round_trip_newline_lost :
  decimal_to_text [10] = Ok (String "010" EmptyString)
  /\ text_to_decimal (String "010" EmptyString) = []
  /\ text_round_trip 10 = Ok [].
Proof. repeat split. Qed.

(* ================================================================== *)
(** * Validation of decimal lists *)
(* ================================================================== *)

(** What [_validate_decimal_range] raises for the value [d]: the
    conversion error with [d] in its message, or what [str] raises when [d]
    has too many digits for it. *)
Definition range_error (d : Z) : exn :=
  match str d with
  | Ok text => ConversionError ("Decimal value must be between 0-255: " ++ text)
  | Raise e => e
  end.

Definition out_of_range (d : Z) : bool := (d <? 0) || (d >? 255).

Lemma out_of_range_iff (d : Z) : out_of_range d = true <-> d < 0 \/ 255 < d.
Proof.
  unfold out_of_range. rewrite orb_true_iff, Z.ltb_lt, Z.gtb_ltb, Z.ltb_lt.
  reflexivity.
Qed.

(** The check returns exactly when no element is out of range, and raises
    for the first one that is. *)
Lemma validate_decimal_range_find (l : list Z) :
  _validate_decimal_range l =
  match find out_of_range l with
  | Some d => Raise (range_error d)
  | None => Ok tt
  end.
Proof.
  induction l as [|d l IH]; [reflexivity|].
  cbn [_validate_decimal_range find].
  fold (out_of_range d). destruct (out_of_range d); [|exact IH].
  unfold range_error. destruct (str d); reflexivity.
Qed.

Lemma validate_decimal_range_ok (l : list Z) :
  (forall d, In d l -> 0 <= d <= 255) -> _validate_decimal_range l = Ok tt.
Proof.
  intros H. rewrite validate_decimal_range_find.
  destruct (find out_of_range l) as [d|] eqn:Hf; [|reflexivity].
  apply find_some in Hf. destruct Hf as [Hin Hout].
  apply out_of_range_iff in Hout. specialize (H d Hin). lia.
Qed.

Lemma validate_decimal_range_raises (l : list Z) :
  (exists d, In d l /\ (d < 0 \/ 255 < d)) ->
  exists d, In d l /\ (d < 0 \/ 255 < d)
            /\ _validate_decimal_range l = Raise (range_error d).
Proof.
  intros [d [Hin Hd]]. rewrite validate_decimal_range_find.
  destruct (find out_of_range l) as [d'|] eqn:Hf.
  - apply find_some in Hf. destruct Hf as [Hin' Hout].
    exists d'. rewrite <- out_of_range_iff. auto.
  - apply out_of_range_iff in Hd.
    rewrite (find_none _ _ Hf d Hin) in Hd. discriminate.
Qed.

(** The representable numerals: [str] returns the decimal numeral of an
    [int] of absolute value below [10 ^ 4300] and raises [ValueError] for
    the others. *)
Lemma max_str_bound_value : max_str_bound = 10 ^ 4300.
Proof. vm_compute. reflexivity. Qed.

Lemma str_small (i : Z) : Z.abs i < 10 ^ 4300 -> str i = Ok (decimal_numeral i).
Proof.
  intros H. unfold str. rewrite <- max_str_bound_value in H.
  replace (Z.abs i >=? max_str_bound) with false; [reflexivity|].
  symmetry. rewrite Z.geb_leb. now apply Z.leb_gt.
Qed.

Lemma str_huge (i : Z) : 10 ^ 4300 <= Z.abs i -> str i = Raise ValueError.
Proof.
  intros H. unfold str. rewrite <- max_str_bound_value in H.
  replace (Z.abs i >=? max_str_bound) with true; [reflexivity|].
  symmetry. rewrite Z.geb_leb. now apply Z.leb_le.
Qed.

Lemma range_error_small (d : Z) :
  Z.abs d < 10 ^ 4300 ->
  range_error d
  = ConversionError ("Decimal value must be between 0-255: " ++ decimal_numeral d).
Proof. intros H. unfold range_error. now rewrite (str_small d H). Qed.

Lemma range_error_huge (d : Z) :
  10 ^ 4300 <= Z.abs d -> range_error d = ValueError.
Proof. intros H. unfold range_error. now rewrite (str_huge d H). Qed.

(** A decimal list with a value outside 0..255 makes each range-checked
    operation raise, for an offending value [d] of the list, what the check
    raises for [d]: nothing is returned, so no value is clamped or
    wrapped. *)
Lemma out_of_range_decimal_raises (l : list Z) :
  (exists d, In d l /\ (d < 0 \/ 255 < d)) ->
  exists d, In d l /\ (d < 0 \/ 255 < d)
    /\ decimal_to_text l = Raise (range_error d)
    /\ decimal_to_binary l = Raise (range_error d)
    /\ decimal_to_hex (DecList l) false = Raise (range_error d)
    /\ (forall other, xor_decimals l other = Raise (range_error d))
    /\ (forall other, exists d',
           (In d' other \/ In d' l) /\ (d' < 0 \/ 255 < d')
           /\ xor_decimals other l = Raise (range_error d')).
Proof.
  intros Hbad.
  destruct (validate_decimal_range_raises l Hbad) as [d [Hin [Hd Hv]]].
  exists d. repeat split; try assumption.
  - unfold decimal_to_text. now rewrite Hv.
  - unfold decimal_to_binary. now rewrite Hv.
  - unfold decimal_to_hex. now rewrite Hv.
  - intros other. unfold xor_decimals. now rewrite Hv.
  - intros other. unfold xor_decimals.
    rewrite (validate_decimal_range_find other).
    destruct (find out_of_range other) as [d'|] eqn:Hf.
    + apply find_some in Hf. destruct Hf as [Hin' Hout].
      apply out_of_range_iff in Hout. exists d'. simpl. auto.
    + exists d. rewrite Hv. simpl. auto.
Qed.

(** A value of more than 4300 digits: the check finds it out of range, and
    [str] raises before the conversion error is made. *)
Lemma huge_decimal_raises (d : Z) :
  255 < d -> 10 ^ 4300 <= Z.abs d ->
  decimal_to_text [d] = Raise ValueError
  /\ decimal_to_binary [d] = Raise ValueError
  /\ decimal_to_hex (DecList [d]) false = Raise ValueError
  /\ xor_decimals [d] [65] = Raise ValueError
  /\ xor_decimals [65] [d] = Raise ValueError.
Proof.
  intros Hd Hbig.
  assert (Hv : _validate_decimal_range [d] = Raise ValueError).
  { rewrite validate_decimal_range_find. cbn [find].
    replace (out_of_range d) with true
      by (symmetry; apply out_of_range_iff; now right).
    now rewrite (range_error_huge d Hbig). }
  assert (H65 : _validate_decimal_range [65] = Ok tt) by reflexivity.
  unfold decimal_to_text, decimal_to_binary, decimal_to_hex, xor_decimals.
  rewrite Hv, H65. repeat split.
Qed.

Lemma huge_decimal_out_of_range :
  255 < 10 ^ 4300 /\ 10 ^ 4300 <= Z.abs (10 ^ 4300).
Proof.
  assert (Hbig : 10 ^ 3 <= 10 ^ 4300) by (apply Z.pow_le_mono_r; lia).
  assert (Hk : 10 ^ 3 = 1000) by reflexivity.
  rewrite Hk in Hbig. revert Hbig. generalize (10 ^ 4300). intros big Hbig.
  lia.
Qed.

(** C4 fails on the code at a value of more than 4300 digits. The message
    of the conversion error is an f-string, and formatting [10 ** 4300]
    raises [ValueError] before the [ConversionError] exists: each
    range-checked operation raises [ValueError] on the list [[10 ** 4300]],
    and not the conversion error. For [256] and [-1] it is the conversion
    error. *)
Theorem huge_decimal_raises_ValueError :
  decimal_to_text [10 ^ 4300] = Raise ValueError
  /\ decimal_to_binary [10 ^ 4300] = Raise ValueError
  /\ decimal_to_hex (DecList [10 ^ 4300]) false = Raise ValueError
  /\ xor_decimals [10 ^ 4300] [65] = Raise ValueError
  /\ xor_decimals [65] [10 ^ 4300] = Raise ValueError
  /\ decimal_to_text [256]
     = Raise (ConversionError "Decimal value must be between 0-255: 256")
  /\ decimal_to_text [-1]
     = Raise (ConversionError "Decimal value must be between 0-255: -1").
Proof.
  destruct huge_decimal_out_of_range as [Hd Hbig].
  destruct (huge_decimal_raises (10 ^ 4300) Hd Hbig) as [H1 [H2 [H3 [H4 H5]]]].
  assert (H256 : decimal_to_text [256]
                 = Raise (ConversionError "Decimal value must be between 0-255: 256"))
    by reflexivity.
  assert (Hneg : decimal_to_text [-1]
                 = Raise (ConversionError "Decimal value must be between 0-255: -1"))
    by reflexivity.
  exact (conj H1 (conj H2 (conj H3 (conj H4 (conj H5 (conj H256 Hneg)))))).
Qed.

(* ================================================================== *)
(** * Validation of binary strings *)
(* ================================================================== *)

(** A binary octet: exactly eight characters, each ['0'] or ['1']. *)
Definition octet (binary : string) : Prop :=
  String.length binary = 8%nat
  /\ forall c, In c (chars binary) -> c = "0"%char \/ c = "1"%char.

(** The error of the binary operations for the element [binary]. *)
Definition binary_error (binary : string) : exn :=
  ConversionError
    ("Binary string must be 8 bits with only 0s and 1s: '" ++ binary ++ "'").

Lemma char_in_01 (c : ascii) :
  char_in c "01" = true <-> c = "0"%char \/ c = "1"%char.
Proof.
  unfold char_in. simpl. rewrite !orb_true_iff, !Ascii.eqb_eq.
  intuition discriminate.
Qed.

(** The test of the code is the negation of [octet]. *)
Lemma malformed_binary_iff (binary : string) :
  malformed_binary binary = false <-> octet binary.
Proof.
  unfold malformed_binary, octet.
  rewrite orb_false_iff, !negb_false_iff, Nat.eqb_eq, forallb_forall.
  split; intros [Hlen Hall]; split; try assumption;
    intros c Hc; apply char_in_01, Hall, Hc.
Qed.

Lemma validate_binary_list_find (binary_list : list string) :
  validate_binary_list binary_list =
  match find malformed_binary binary_list with
  | Some binary => Raise (binary_error binary)
  | None => Ok tt
  end.
Proof.
  induction binary_list as [|b l IH]; simpl; [reflexivity|].
  destruct (malformed_binary b); [reflexivity | exact IH].
Qed.

Lemma validate_binary_list_ok (binary_list : list string) :
  (forall b, In b binary_list -> octet b) ->
  validate_binary_list binary_list = Ok tt.
Proof.
  intros H. rewrite validate_binary_list_find.
  destruct (find malformed_binary binary_list) as [b|] eqn:Hf; [|reflexivity].
  apply find_some in Hf. destruct Hf as [Hin Hbad].
  apply H, malformed_binary_iff in Hin. congruence.
Qed.

(** C5. A list of binary strings with an element that is not an octet (a
    string of 7 or 9 characters, or one with a character other than ['0']
    and ['1']) makes [binary_to_hex], [binary_to_text] and
    [binary_to_decimal] raise the conversion error for the first such
    element; the whole list is checked before any element is converted, so
    nothing is returned wherever the element stands. *)
Theorem malformed_binary_rejected (binary_list : list string) :
  (exists b, In b binary_list /\ ~ octet b) ->
  exists front b back,
    binary_list = (front ++ b :: back)%list
    /\ (forall b', In b' front -> octet b') /\ ~ octet b
    /\ binary_to_hex binary_list = Raise (binary_error b)
    /\ binary_to_text binary_list = Raise (binary_error b)
    /\ binary_to_decimal binary_list = Raise (binary_error b).
Proof.
  intros [b0 [Hin0 Hbad0]].
  assert (Hsplit : exists front b back,
             binary_list = (front ++ b :: back)%list
             /\ (forall b', In b' front -> octet b') /\ ~ octet b
             /\ find malformed_binary binary_list = Some b).
  { clear - Hin0 Hbad0.
    induction binary_list as [|x l IH]; [destruct Hin0|].
    simpl. destruct (malformed_binary x) eqn:Hx.
    - exists [], x, l. split; [reflexivity|]. split; [intros b' []|].
      split; [|reflexivity].
      intros Hoct. apply malformed_binary_iff in Hoct. congruence.
    - destruct Hin0 as [->|Hin0].
      + apply malformed_binary_iff in Hx. contradiction.
      + destruct (IH Hin0) as [front [b [back [Heq [Hfront [Hb Hf]]]]]].
        exists (x :: front), b, back.
        split; [simpl; now rewrite Heq|].
        split; [|split; assumption].
        intros b' [<-|Hb']; [now apply malformed_binary_iff | auto]. }
  destruct Hsplit as [front [b [back [Heq [Hfront [Hb Hf]]]]]].
  exists front, b, back.
  unfold binary_to_hex, binary_to_text, binary_to_decimal.
  rewrite validate_binary_list_find, Hf. simpl. auto 7.
Qed.

Lemma malformed_binary_rejected_witness :
  exists front b back,
    ["01000001"; "0100000"; "010000012"] = (front ++ b :: back)%list
    /\ (forall b', In b' front -> octet b') /\ ~ octet b
    /\ binary_to_hex ["01000001"; "0100000"; "010000012"]
       = Raise (binary_error b)
    /\ binary_to_text ["01000001"; "0100000"; "010000012"]
       = Raise (binary_error b)
    /\ binary_to_decimal ["01000001"; "0100000"; "010000012"]
       = Raise (binary_error b).
Proof.
  apply (malformed_binary_rejected ["01000001"; "0100000"; "010000012"]).
  exists "0100000". split; [simpl; auto|].
  intros [Hlen _]. discriminate Hlen.
Defined.

(* ================================================================== *)
(** * XOR of decimal lists *)
(* ================================================================== *)

(** One round of [xor_decimals] on two byte values: through the binary
    strings and back. *)
Definition xor_byte_ok (a b : Z) : bool :=
  match xor_b (d_to_b a) (d_to_b b) with
  | Ok xored_binary => b_to_d xored_binary =? Z.lxor a b
  | Raise _ => false
  end.

Lemma xor_byte_all :
  forallb (fun a => forallb (xor_byte_ok a) bytes) bytes = true.
Proof. vm_compute. reflexivity. Qed.

Lemma xor_byte (a b : Z) :
  0 <= a <= 255 -> 0 <= b <= 255 ->
  exists xored_binary,
    xor_b (d_to_b a) (d_to_b b) = Ok xored_binary
    /\ b_to_d xored_binary = Z.lxor a b.
Proof.
  intros Ha Hb.
  pose proof (forall_bytes _ xor_byte_all a Ha) as H. simpl in H.
  pose proof (forall_bytes _ H b Hb) as H'. unfold xor_byte_ok in H'.
  destruct (xor_b (d_to_b a) (d_to_b b)) as [s|e]; [|discriminate].
  exists s. split; [reflexivity | now apply Z.eqb_eq].
Qed.

(** The element-wise XOR of two lists, up to the end of the shorter one. *)
Fixpoint xor_lists (la lb : list Z) : list Z :=
  match la, lb with
  | a :: la', b :: lb' => Z.lxor a b :: xor_lists la' lb'
  | _, _ => []
  end.

Lemma xor_lists_length (la lb : list Z) :
  List.length (xor_lists la lb) = Nat.min (List.length la) (List.length lb).
Proof.
  revert lb; induction la as [|a la IH]; intros [|b lb]; simpl; auto.
Qed.

Lemma xor_lists_nth (la lb : list Z) (i : nat) :
  (i < Nat.min (List.length la) (List.length lb))%nat ->
  nth i (xor_lists la lb) 0 = Z.lxor (nth i la 0) (nth i lb 0).
Proof.
  revert lb i; induction la as [|a la IH]; intros [|b lb] [|i] Hi;
    simpl in *; try lia; auto.
  apply IH. lia.
Qed.

Lemma item_middle {A : Type} (front back : list A) (x : A) :
  item (front ++ x :: back)%list (List.length front) = Ok x.
Proof.
  unfold item. rewrite nth_error_app2 by lia.
  now rewrite Nat.sub_diag.
Qed.

(** The loop of [xor_decimals] from index [k] on, with [k] elements of each
    list behind it. *)
Lemma xor_loop (pa pb la lb acc : list Z) :
  List.length pa = List.length pb ->
  (forall d, In d la -> 0 <= d <= 255) ->
  (forall d, In d lb -> 0 <= d <= 255) ->
  for_in (seq (List.length pa) (Nat.min (List.length la) (List.length lb)))
    (fun xored_decs i =>
       a <- item (pa ++ la)%list i ;;
       b <- item (pb ++ lb)%list i ;;
       let binary_a := d_to_b a in
       let binary_b := d_to_b b in
       xored_binary <- xor_b binary_a binary_b ;;
       Ok (xored_decs ++ [b_to_d xored_binary])%list)
    acc
  = Ok (acc ++ xor_lists la lb)%list.
Proof.
  revert pa pb lb acc.
  induction la as [|a la IH]; intros pa pb lb acc Hlen Ha Hb.
  - simpl. now rewrite app_nil_r.
  - destruct lb as [|b lb]; [simpl; now rewrite app_nil_r|].
    cbn [List.length Nat.min seq for_in xor_lists].
    rewrite item_middle. cbn [bind].
    rewrite Hlen at 1. rewrite item_middle. cbn [bind].
    destruct (xor_byte a b) as [s [Hs Hv]];
      [apply Ha; left; reflexivity | apply Hb; left; reflexivity |].
    rewrite Hs. cbn [bind]. rewrite Hv.
    specialize (IH (pa ++ [a])%list (pb ++ [b])%list lb
                   (acc ++ [Z.lxor a b])%list).
    rewrite !length_app, <- !app_assoc in IH. simpl in IH.
    rewrite Nat.add_1_r in IH.
    rewrite IH.
    + reflexivity.
    + lia.
    + intros d Hd. apply Ha. right. exact Hd.
    + intros d Hd. apply Hb. right. exact Hd.
Qed.

Lemma xor_decimals_spec (la lb : list Z) :
  (forall d, In d la -> 0 <= d <= 255) ->
  (forall d, In d lb -> 0 <= d <= 255) ->
  xor_decimals la lb = Ok (xor_lists la lb).
Proof.
  intros Ha Hb. unfold xor_decimals.
  rewrite (validate_decimal_range_ok la Ha), (validate_decimal_range_ok lb Hb).
  cbn [bind]. rewrite range_step1.
  exact (xor_loop [] [] la lb [] eq_refl Ha Hb).
Qed.

(** C7. For two decimal lists with all elements in 0..255, [xor_decimals]
    raises nothing and returns a list as long as the shorter input whose
    [i]-th element is the bitwise XOR of the [i]-th elements of the inputs;
    and [xor_decimals([65], [32])] is [[97]]. *)
Theorem xor_decimals_elementwise (la lb : list Z) :
  (forall d, In d la -> 0 <= d <= 255) ->
  (forall d, In d lb -> 0 <= d <= 255) ->
  (exists xored_decs,
      xor_decimals la lb = Ok xored_decs
      /\ List.length xored_decs = Nat.min (List.length la) (List.length lb)
      /\ forall i, (i < List.length xored_decs)%nat ->
           nth i xored_decs 0 = Z.lxor (nth i la 0) (nth i lb 0))
  /\ xor_decimals [65] [32] = Ok [97].
Proof.
  intros Ha Hb. split; [|reflexivity].
  exists (xor_lists la lb). split; [now apply xor_decimals_spec|].
  split; [apply xor_lists_length|].
  intros i Hi. rewrite xor_lists_length in Hi. now apply xor_lists_nth.
Qed.

Lemma xor_decimals_elementwise_witness :
  (exists xored_decs,
      xor_decimals [65; 255; 7] [32; 15] = Ok xored_decs
      /\ List.length xored_decs
         = Nat.min (List.length [65; 255; 7]) (List.length [32; 15])
      /\ forall i, (i < List.length xored_decs)%nat ->
           nth i xored_decs 0
           = Z.lxor (nth i [65; 255; 7] 0) (nth i [32; 15] 0))
  /\ xor_decimals [65] [32] = Ok [97].
Proof.
  apply (xor_decimals_elementwise [65; 255; 7] [32; 15]);
    intros d Hd; simpl in Hd; intuition lia.
Defined.

(* ================================================================== *)
(** * Text to decimal: line feeds at the ends *)
(* ================================================================== *)

Definition newline : ascii := "010"%char.

(** A string of [n] line feeds. *)
Fixpoint newlines (n : nat) : string :=
  match n with
  | O => EmptyString
  | S n' => String newline (newlines n')
  end.

Definition nl_set : string := String newline EmptyString.

Lemma char_in_nl (c : ascii) : char_in c nl_set = Ascii.eqb c newline.
Proof. unfold char_in. simpl. apply orb_false_r. Qed.

Lemma text_to_decimal_map (text : string) :
  text_to_decimal text = map ord (chars (strip nl_set text)).
Proof. unfold text_to_decimal. now rewrite fold_left_snoc. Qed.

Lemma lstrip_newlines (m : nat) (s : string) :
  lstrip nl_set (newlines m ++ s) = lstrip nl_set s.
Proof.
  induction m as [|m IH]; [reflexivity|].
  cbn [newlines append lstrip]. rewrite char_in_nl, Ascii.eqb_refl. exact IH.
Qed.

Lemma lstrip_no_leading (s : string) :
  (forall t, s <> String newline t) -> lstrip nl_set s = s.
Proof.
  intros H. destruct s as [|c s]; [reflexivity|].
  cbn [lstrip]. rewrite char_in_nl.
  destruct (Ascii.eqb c newline) eqn:Hc; [|reflexivity].
  apply Ascii.eqb_eq in Hc. subst c. now destruct (H s).
Qed.

Lemma rstrip_only_newlines (n : nat) : rstrip nl_set (newlines n) = EmptyString.
Proof.
  induction n as [|n IH]; [reflexivity|].
  cbn [newlines rstrip]. rewrite IH, char_in_nl. reflexivity.
Qed.

Lemma rstrip_newlines (s : string) (n : nat) :
  rstrip nl_set (s ++ newlines n) = rstrip nl_set s.
Proof.
  induction s as [|c s IH]; [apply rstrip_only_newlines|].
  cbn [append rstrip]. now rewrite IH.
Qed.

Lemma rstrip_no_trailing (s : string) :
  (forall t, s <> t ++ nl_set) -> rstrip nl_set s = s.
Proof.
  induction s as [|c s IH]; intros H; [reflexivity|].
  cbn [rstrip]. rewrite IH.
  - destruct s as [|c' s]; [|reflexivity].
    rewrite char_in_nl.
    destruct (Ascii.eqb c newline) eqn:Hc; [|reflexivity].
    apply Ascii.eqb_eq in Hc. subst c. now destruct (H EmptyString).
  - intros t Ht. apply (H (String c t)). simpl. now rewrite Ht.
Qed.

Lemma strip_newlines (m n : nat) (core : string) :
  (forall t, core <> String newline t) ->
  (forall t, core <> t ++ nl_set) ->
  strip nl_set (newlines m ++ core ++ newlines n) = core.
Proof.
  intros Hfirst Hlast. unfold strip. rewrite lstrip_newlines.
  destruct core as [|c core].
  - simpl. replace (newlines n) with (newlines n ++ EmptyString)
      by apply append_nil_r.
    now rewrite lstrip_newlines.
  - rewrite lstrip_no_leading.
    + rewrite rstrip_newlines. now apply rstrip_no_trailing.
    + intros t Ht. simpl in Ht. injection Ht as -> _. now destruct (Hfirst core).
Qed.

(** C10. [text_to_decimal] strips every leading and trailing line feed
    before it converts. For a text made of [m] line feeds, a core that
    neither starts nor ends with a line feed, and [n] line feeds, the result
    is the code points of the core alone: the line feeds at the ends give no
    element, those inside the core are converted like any character (to
    10). Thus a line feed, ["A"], a line feed gives [[65]]. *)
Theorem text_to_decimal_strips_newlines (m n : nat) (core : string) :
  (forall t, core <> String newline t) ->
  (forall t, core <> t ++ nl_set) ->
  text_to_decimal (newlines m ++ core ++ newlines n) = map ord (chars core)
  /\ text_to_decimal (String newline (String "A" (String newline EmptyString)))
     = [65]
  /\ text_to_decimal (String "A" (String newline (String "B" EmptyString)))
     = [65; 10; 66].
Proof.
  intros Hfirst Hlast. split; [|split; reflexivity].
  rewrite text_to_decimal_map. now rewrite strip_newlines.
Qed.

Lemma text_to_decimal_strips_newlines_witness :
  text_to_decimal
    (newlines 2 ++ String "A" (String newline (String "B" EmptyString))
       ++ newlines 3)
  = map ord (chars (String "A" (String newline (String "B" EmptyString))))
  /\ text_to_decimal (String newline (String "A" (String newline EmptyString)))
     = [65]
  /\ text_to_decimal (String "A" (String newline (String "B" EmptyString)))
     = [65; 10; 66].
Proof.
  apply (text_to_decimal_strips_newlines 2 3
           (String "A" (String newline (String "B" EmptyString)))).
  - intros t Ht. discriminate Ht.
  - intros t Ht.
    destruct t as [|c1 [|c2 [|c3 t]]]; simpl in Ht; try discriminate Ht.
    destruct t; discriminate Ht.
Defined.

(* ================================================================== *)
(** * Hex strings: pairs and digits *)
(* ================================================================== *)

(** Induction on a string two characters at a time. *)
Lemma string_pair_ind (P : string -> Prop) :
  P EmptyString ->
  (forall a, P (String a EmptyString)) ->
  (forall a b s, P s -> P (String a (String b s))) ->
  forall s, P s.
Proof.
  intros H0 H1 H2 s.
  assert (H : P s /\ forall a, P (String a s)).
  { induction s as [|b s [IHs IHa]]; split; auto. }
  exact (proj1 H).
Qed.

(** The pairs of a string, by recursion on it: two characters at a time,
    and the last one alone when the length is odd. *)
Fixpoint pairs (s : string) : list string :=
  match s with
  | String a (String b s') => String a (String b EmptyString) :: pairs s'
  | String a EmptyString => [String a EmptyString]
  | EmptyString => []
  end.

Lemma range_step2_SS (n : nat) :
  range 0 (S (S n)) 2 = (0 :: map (fun i => 2 + i) (range 0 n 2))%nat.
Proof.
  unfold range. rewrite !Nat.sub_0_r.
  replace (S (S n) + (2 - 1))%nat with (n + (2 - 1) + 1 * 2)%nat by lia.
  rewrite Nat.div_add by lia. rewrite Nat.add_1_r.
  cbn [seq map]. f_equal. rewrite <- seq_shift, !map_map.
  apply map_ext. intros k. lia.
Qed.

(** The list comprehension of the hex operations yields [pairs]. *)
Lemma hex_pairs_pairs (s : string) : hex_pairs s = pairs s.
Proof.
  induction s as [| a | a b s IH] using string_pair_ind; try reflexivity.
  unfold hex_pairs in *. cbn [String.length pairs].
  rewrite range_step2_SS. cbn [map].
  f_equal; [unfold slice; simpl; now rewrite substring_none|].
  rewrite map_map, <- IH. apply map_ext. intros i.
  unfold slice. replace (2 + i + 2 - (2 + i))%nat with 2%nat by lia.
  replace (i + 2 - i)%nat with 2%nat by lia. reflexivity.
Qed.

Lemma pairs_length (s : string) :
  List.length (pairs s) = Nat.div (String.length s + 1) 2.
Proof.
  induction s as [| a | a b s IH] using string_pair_ind; try reflexivity.
  cbn [pairs List.length String.length]. rewrite IH.
  replace (S (S (String.length s)) + 1)%nat
    with (String.length s + 1 + 1 * 2)%nat by lia.
  rewrite Nat.div_add by lia. lia.
Qed.

(** A class of characters outside of which [int] refuses the pair: the
    digits of base 16, the signs, and the white space of [str.isspace] on
    code points 0..255, which is more than [int_space], the white space the
    parser skips. *)
Definition isspace (c : ascii) : bool :=
  let n := N_of_ascii c in
  ((9 <=? n) && (n <=? 13) || (28 <=? n) && (n <=? 32)
   || (n =? 133) || (n =? 160))%N.

Definition is_sign (c : ascii) : bool := Ascii.eqb c "+" || Ascii.eqb c "-".

Definition pair_char (c : ascii) : bool :=
  is_digit16 c || is_sign c || isspace c.

Definition raises_ValueError {A : Type} (r : result A) : bool :=
  match r with
  | Raise ValueError => true
  | _ => false
  end.

Definition returns (r : result Z) (v : Z) : bool :=
  match r with
  | Ok n => n =? v
  | Raise _ => false
  end.

Lemma returns_iff (r : result Z) (v : Z) : returns r v = true <-> r = Ok v.
Proof.
  destruct r as [n|e]; simpl; [rewrite Z.eqb_eq|]; split; congruence.
Qed.

Lemma raises_ValueError_iff {A : Type} (r : result A) :
  raises_ValueError r = true <-> r = Raise ValueError.
Proof.
  destruct r as [n|[]]; simpl; split; congruence.
Qed.

(** What [int] does on one character and on two, checked on all of them. *)
Definition single_facts (a : ascii) : bool :=
  match digit16 a with
  | Some va => returns (int16 (String a EmptyString)) va
  | None => true
  end
  && implb (negb (pair_char a))
       (raises_ValueError (int16 (String a EmptyString)))
  && implb (is_digit16 a)
       (negb (int_space a) && negb (is_sign a) && negb (Ascii.eqb a "x")
        && negb (Ascii.eqb a "X") && negb (Ascii.eqb a underscore))
  && implb (int_space a) (isspace a).

Definition pair_facts (a b : ascii) : bool :=
  match digit16 a, digit16 b with
  | Some va, Some vb =>
      returns (int16 (String a (String b EmptyString))) (16 * va + vb)
  | _, _ => true
  end
  && implb (negb (pair_char a) || negb (pair_char b))
       (raises_ValueError (int16 (String a (String b EmptyString)))).

Lemma single_facts_all : forallb single_facts all_ascii = true.
Proof. vm_compute. reflexivity. Qed.

Lemma pair_facts_all :
  forallb (fun a => forallb (pair_facts a) all_ascii) all_ascii = true.
Proof. vm_compute. reflexivity. Qed.

Lemma single_fact (a : ascii) : single_facts a = true.
Proof. apply forall_ascii, single_facts_all. Qed.

Lemma pair_fact (a b : ascii) : pair_facts a b = true.
Proof.
  pose proof (forall_ascii _ pair_facts_all a) as H. simpl in H.
  apply (forall_ascii _ H).
Qed.

Lemma int16_digit (a : ascii) (va : Z) :
  digit16 a = Some va -> int16 (String a EmptyString) = Ok va.
Proof.
  intros Ha. pose proof (single_fact a) as H. unfold single_facts in H.
  rewrite Ha in H. rewrite !andb_true_iff in H.
  now apply returns_iff.
Qed.

Lemma int16_two_digits (a b : ascii) (va vb : Z) :
  digit16 a = Some va -> digit16 b = Some vb ->
  int16 (String a (String b EmptyString)) = Ok (16 * va + vb).
Proof.
  intros Ha Hb. pose proof (pair_fact a b) as H. unfold pair_facts in H.
  rewrite Ha, Hb in H. rewrite andb_true_iff in H.
  now apply returns_iff.
Qed.

Lemma int16_bad_single (a : ascii) :
  pair_char a = false -> int16 (String a EmptyString) = Raise ValueError.
Proof.
  intros Ha. pose proof (single_fact a) as H. unfold single_facts in H.
  rewrite Ha in H. rewrite !andb_true_iff in H. simpl in H.
  now apply raises_ValueError_iff.
Qed.

Lemma int16_bad_pair (a b : ascii) :
  pair_char a = false \/ pair_char b = false ->
  int16 (String a (String b EmptyString)) = Raise ValueError.
Proof.
  intros Hab. pose proof (pair_fact a b) as H. unfold pair_facts in H.
  rewrite andb_true_iff in H. destruct H as [_ H].
  apply raises_ValueError_iff.
  destruct Hab as [Hx|Hx]; rewrite Hx in H; simpl in H;
    [|rewrite orb_true_r in H]; exact H.
Qed.

Lemma digit16_not_special (a : ascii) :
  is_digit16 a = true ->
  int_space a = false /\ is_sign a = false /\ Ascii.eqb a "x" = false
  /\ Ascii.eqb a "X" = false /\ Ascii.eqb a underscore = false.
Proof.
  intros Ha. pose proof (single_fact a) as H. unfold single_facts in H.
  rewrite Ha in H. rewrite !andb_true_iff in H. simpl in H.
  rewrite !andb_true_iff, !negb_true_iff in H. tauto.
Qed.

Lemma int_space_isspace (a : ascii) : int_space a = true -> isspace a = true.
Proof.
  intros Ha. pose proof (single_fact a) as H. unfold single_facts in H.
  rewrite Ha in H. rewrite !andb_true_iff in H. simpl in H. tauto.
Qed.

(** [int] raises nothing but [ValueError]. *)
Lemma int16_raises (s : string) (e : exn) : int16 s = Raise e -> e = ValueError.
Proof.
  unfold int16. destruct (read_sign (skip_space s)) as [negative s2].
  destruct (skip_prefix16 s2) as [|c s3]; [congruence|].
  destruct (is_digit16 c); [|congruence].
  destruct (scan_digits (String c s3) false 0) as [[v rest]|]; [|congruence].
  destruct (all_space rest); congruence.
Qed.

(** ** Strings of hex digits *)

Definition all_hex (s : string) : bool := forallb is_digit16 (chars s).

Definition digit_value (c : ascii) : Z :=
  match digit16 c with
  | Some v => v
  | None => 0
  end.

Lemma digit16_value (c : ascii) :
  is_digit16 c = true -> digit16 c = Some (digit_value c).
Proof.
  unfold is_digit16, digit_value. destruct (digit16 c); [reflexivity | discriminate].
Qed.

Lemma all_hex_cons (c : ascii) (s : string) :
  all_hex (String c s) = true <-> is_digit16 c = true /\ all_hex s = true.
Proof. unfold all_hex. simpl. apply andb_true_iff. Qed.

Lemma all_hex_app (s t : string) :
  all_hex (s ++ t) = all_hex s && all_hex t.
Proof. unfold all_hex. now rewrite chars_app, forallb_app. Qed.

(** ** The prefix *)

Lemma startswith_nil (s : string) : startswith s EmptyString = true.
Proof. destruct s; reflexivity. Qed.

Lemma startswith_cons (a b : ascii) (s p : string) :
  startswith (String a s) (String b p) = Ascii.eqb b a && startswith s p.
Proof.
  unfold startswith. cbn [prefix].
  destruct (ascii_dec b a) as [->|Hne].
  - now rewrite Ascii.eqb_refl.
  - apply Ascii.eqb_neq in Hne. now rewrite Hne.
Qed.

Lemma slice_from_2 (a b : ascii) (s : string) :
  slice_from (String a (String b s)) 2 = s.
Proof.
  unfold slice_from. cbn [String.length Nat.sub substring].
  rewrite Nat.sub_0_r. apply substring_all.
Qed.

Lemma strip_0x_prefixed (s : string) : strip_0x ("0x" ++ s) = s.
Proof.
  unfold strip_0x. cbn [append].
  rewrite !startswith_cons, startswith_nil, !Ascii.eqb_refl.
  cbn [andb]. apply slice_from_2.
Qed.

Lemma strip_0x_plain (s : string) : startswith s "0x" = false -> strip_0x s = s.
Proof. unfold strip_0x. now intros ->. Qed.

Lemma all_hex_no_prefix (s : string) :
  all_hex s = true -> startswith s "0x" = false.
Proof.
  intros H. destruct s as [|a [|b s]]; try reflexivity.
  - rewrite startswith_cons. apply andb_false_r.
  - rewrite !startswith_cons.
    apply all_hex_cons in H. destruct H as [_ H].
    apply all_hex_cons in H. destruct H as [H _].
    destruct (digit16_not_special b H) as [_ [_ [Hx _]]].
    rewrite (Ascii.eqb_sym "x" b), Hx. cbn [andb]. apply andb_false_r.
Qed.

(** ** The default mode on hex digits *)

(** The value of each pair of a string of hex digits, and of the last digit
    alone when the length is odd. *)
Fixpoint pair_values (s : string) : list Z :=
  match s with
  | String a (String b s') =>
      (16 * digit_value a + digit_value b) :: pair_values s'
  | String a EmptyString => [digit_value a]
  | EmptyString => []
  end.

Lemma pair_values_length (s : string) :
  List.length (pair_values s) = Nat.div (String.length s + 1) 2.
Proof.
  induction s as [| a | a b s IH] using string_pair_ind; try reflexivity.
  cbn [pair_values List.length String.length]. rewrite IH.
  replace (S (S (String.length s)) + 1)%nat
    with (String.length s + 1 + 1 * 2)%nat by lia.
  rewrite Nat.div_add by lia. lia.
Qed.

Lemma pair_values_snoc (s : string) (c : ascii) :
  Nat.even (String.length s) = true ->
  pair_values (s ++ String c EmptyString)
  = (pair_values s ++ [digit_value c])%list.
Proof.
  induction s as [| a | a b s IH] using string_pair_ind; intros Hev.
  - reflexivity.
  - discriminate Hev.
  - cbn [append pair_values app]. now rewrite IH.
Qed.

Lemma even_half (n : nat) :
  Nat.even n = true -> Nat.div (n + 1) 2 = Nat.div n 2.
Proof.
  intros H. apply Nat.even_spec in H. destruct H as [k ->].
  rewrite (Nat.mul_comm 2 k), Nat.div_add_l, Nat.div_mul by lia.
  simpl. lia.
Qed.

Lemma hex_decimal_loop (s : string) (acc : list Z) :
  all_hex s = true ->
  for_in (pairs s)
    (fun decimal_list i => n <- int16 i ;; Ok (decimal_list ++ [n])%list) acc
  = Ok (acc ++ pair_values s)%list.
Proof.
  revert acc.
  induction s as [| a | a b s IH] using string_pair_ind; intros acc H.
  - simpl. now rewrite app_nil_r.
  - apply all_hex_cons in H. destruct H as [Ha _].
    cbn [pairs for_in pair_values].
    now rewrite (int16_digit a _ (digit16_value a Ha)).
  - apply all_hex_cons in H. destruct H as [Ha H].
    apply all_hex_cons in H. destruct H as [Hb H].
    cbn [pairs for_in pair_values].
    rewrite (int16_two_digits a b _ _ (digit16_value a Ha) (digit16_value b Hb)).
    cbn [bind]. rewrite IH by assumption. now rewrite <- app_assoc.
Qed.

Lemma hex_to_decimal_digits (s : string) :
  all_hex s = true ->
  hex_to_decimal s false = Ok (DecList (pair_values s)).
Proof.
  intros H. unfold hex_to_decimal.
  rewrite (strip_0x_plain s (all_hex_no_prefix s H)), hex_pairs_pairs.
  now rewrite hex_decimal_loop.
Qed.

(** C3, as the code has it. For a string of hex digits of odd length, that
    is a string [s] of even length followed by one digit [c], the default
    mode of [hex_to_decimal] does not drop [c]: it returns the values of
    the complete pairs (what it returns for [s], as many as half the length
    of [s]) followed by the value of [c] parsed on its own. *)
Theorem hex_to_decimal_odd_length (s : string) (c : ascii) :
  all_hex s = true -> Nat.even (String.length s) = true ->
  is_digit16 c = true ->
  exists decimal_list,
    hex_to_decimal s false = Ok (DecList decimal_list)
    /\ List.length decimal_list = Nat.div (String.length s) 2
    /\ hex_to_decimal (s ++ String c EmptyString) false
       = Ok (DecList (decimal_list ++ [digit_value c])).
Proof.
  intros Hs Hev Hc. exists (pair_values s).
  split; [now apply hex_to_decimal_digits|].
  split; [rewrite pair_values_length; now apply even_half|].
  rewrite hex_to_decimal_digits.
  - now rewrite pair_values_snoc.
  - rewrite all_hex_app, Hs. apply all_hex_cons. now split.
Qed.

Lemma hex_to_decimal_odd_length_witness :
  exists decimal_list,
    hex_to_decimal "ab" false = Ok (DecList decimal_list)
    /\ List.length decimal_list = Nat.div (String.length "ab") 2
    /\ hex_to_decimal ("ab" ++ String "c" EmptyString) false
       = Ok (DecList (decimal_list ++ [digit_value "c"])).
Proof.
  apply (hex_to_decimal_odd_length "ab" "c"); reflexivity.
Defined.

(** C3 fails on ["abc"]: the result has two elements, not
    [floor(3/2) = 1], and its last element, 12, is the value of the
    unpaired digit [c]. *)
Lemma hex_to_decimal_keeps_odd_digit :
  hex_to_decimal "abc" false = Ok (DecList [171; 12])
  /\ List.length [171; 12] = 2%nat
  /\ Nat.div (String.length "abc") 2 = 1%nat
  /\ digit16 "c" = Some 12.
Proof. repeat split. Qed.

(** ** The single-value mode on hex digits *)

(** The number a string of hex digits denotes in base 16. *)
Fixpoint hex_value (s : string) : Z :=
  match s with
  | EmptyString => 0
  | String c s' =>
      digit_value c * 16 ^ Z.of_nat (String.length s') + hex_value s'
  end.

Lemma scan_digits_hex (s : string) (acc : Z) :
  all_hex s = true ->
  scan_digits s false acc
  = Some (acc * 16 ^ Z.of_nat (String.length s) + hex_value s, EmptyString).
Proof.
  revert acc. induction s as [|c s IH]; intros acc H.
  - simpl. do 2 f_equal. lia.
  - apply all_hex_cons in H. destruct H as [Hc H].
    destruct (digit16_not_special c Hc) as [_ [_ [_ [_ Hu]]]].
    cbn [scan_digits]. rewrite Hu, (digit16_value c Hc), IH by assumption.
    do 2 f_equal. cbn [hex_value String.length].
    rewrite Nat2Z.inj_succ, Z.pow_succ_r by lia. ring.
Qed.

Lemma int16_hex (s : string) :
  s <> EmptyString -> all_hex s = true -> int16 s = Ok (hex_value s).
Proof.
  intros Hne H. destruct s as [|c s]; [contradiction|].
  pose proof H as H'. apply all_hex_cons in H'. destruct H' as [Hc Hs].
  destruct (digit16_not_special c Hc) as [Hsp [Hsg [Hx [HX Hu]]]].
  unfold is_sign in Hsg. apply orb_false_iff in Hsg. destruct Hsg as [Hp Hm].
  unfold int16. cbn [skip_space]. rewrite Hsp.
  cbn [read_sign]. rewrite Hp, Hm.
  assert (Hpre : skip_prefix16 (String c s) = String c s).
  { destruct s as [|x s]; [reflexivity|].
    apply all_hex_cons in Hs. destruct Hs as [Hxd _].
    destruct (digit16_not_special x Hxd) as [_ [_ [Hx' [HX' _]]]].
    cbn [skip_prefix16]. rewrite Hx', HX'. now rewrite andb_false_r. }
  rewrite Hpre, Hc, (scan_digits_hex _ 0 H). simpl. reflexivity.
Qed.

(** C9. In the single-value mode [hex_to_decimal] parses a whole string of
    hex digits as one integer, the number the string denotes in base 16,
    whatever its size: no range 0..255 applies. Thus ["ff"] gives 255 and
    ["1ff"] gives 511. *)
Theorem hex_to_decimal_single_value (s : string) :
  s <> EmptyString -> all_hex s = true ->
  hex_to_decimal s true = Ok (DecInt (hex_value s))
  /\ hex_to_decimal "ff" true = Ok (DecInt 255)
  /\ hex_to_decimal "1ff" true = Ok (DecInt 511).
Proof.
  intros Hne H. split; [|split; reflexivity].
  unfold hex_to_decimal.
  rewrite (strip_0x_plain s (all_hex_no_prefix s H)).
  now rewrite (int16_hex s Hne H).
Qed.

Lemma hex_to_decimal_single_value_witness :
  hex_to_decimal "1F2e3d4c5b6a" true = Ok (DecInt (hex_value "1F2e3d4c5b6a"))
  /\ hex_to_decimal "ff" true = Ok (DecInt 255)
  /\ hex_to_decimal "1ff" true = Ok (DecInt 511).
Proof.
  apply (hex_to_decimal_single_value "1F2e3d4c5b6a");
    [discriminate | reflexivity].
Defined.

(** The mode has no bound: a one followed by [k] zeros gives [16 ^ k]. *)
Fixpoint zeros (k : nat) : string :=
  match k with
  | O => EmptyString
  | S k' => String "0" (zeros k')
  end.

Lemma zeros_hex (k : nat) :
  all_hex (zeros k) = true /\ hex_value (zeros k) = 0
  /\ String.length (zeros k) = k.
Proof.
  induction k as [|k [Ha [Hv Hl]]]; [repeat split|].
  cbn [zeros hex_value String.length]. rewrite Hv, Hl.
  split; [apply all_hex_cons; now split | split; [reflexivity | reflexivity]].
Qed.

Lemma single_value_unbounded (k : nat) :
  hex_to_decimal (String "1" (zeros k)) true = Ok (DecInt (16 ^ Z.of_nat k)).
Proof.
  destruct (zeros_hex k) as [Ha [Hv Hl]].
  assert (H : all_hex (String "1" (zeros k)) = true)
    by (apply all_hex_cons; now split).
  unfold hex_to_decimal.
  rewrite (strip_0x_plain _ (all_hex_no_prefix _ H)).
  rewrite (int16_hex (String "1" (zeros k)) ltac:(discriminate) H).
  cbn [bind hex_value]. rewrite Hv, Hl.
  change (digit_value "1") with 1. now rewrite Z.mul_1_l, Z.add_0_r.
Qed.

(* ================================================================== *)
(** * The prefix on parse and in the output *)
(* ================================================================== *)

(** Parsing ["0x" + s] is parsing [s], for every [s] that does not itself
    start with ["0x"]. *)
Lemma hex_prefix_stripped (s : string) :
  startswith s "0x" = false ->
  hex_to_decimal ("0x" ++ s) false = hex_to_decimal s false
  /\ hex_to_decimal ("0x" ++ s) true = hex_to_decimal s true
  /\ hex_to_text ("0x" ++ s) = hex_to_text s
  /\ hex_to_binary ("0x" ++ s) = hex_to_binary s.
Proof.
  intros H.
  unfold hex_to_decimal, hex_to_text, hex_to_binary.
  rewrite strip_0x_prefixed, (strip_0x_plain s H).
  repeat split. destruct s; reflexivity.
Qed.

(** A lowercase digit of base 16, and a string of them. *)
Definition lower_hex (c : ascii) : bool :=
  let n := N_of_ascii c in
  ((48 <=? n) && (n <=? 57) || (97 <=? n) && (n <=? 102))%N.

Definition lower_hex_string (s : string) : bool := forallb lower_hex (chars s).

Lemma lower_hex_string_app (s t : string) :
  lower_hex_string (s ++ t) = lower_hex_string s && lower_hex_string t.
Proof. unfold lower_hex_string. now rewrite chars_app, forallb_app. Qed.

Lemma lower_hex_digit16_all :
  forallb (fun c => implb (lower_hex c) (is_digit16 c)) all_ascii = true.
Proof. vm_compute. reflexivity. Qed.

Lemma lower_hex_all_hex (s : string) :
  lower_hex_string s = true -> all_hex s = true.
Proof.
  unfold lower_hex_string, all_hex. rewrite !forallb_forall.
  intros H c Hc. specialize (H c Hc).
  pose proof (forall_ascii _ lower_hex_digit16_all c) as Hi. simpl in Hi.
  now rewrite H in Hi.
Qed.

(** The digits [hex] writes for a positive number. *)
Fixpoint of_pos_lower (p : positive) (rest : string) {struct p} :
  lower_hex_string (HexString.Raw.of_pos p rest) = lower_hex_string rest.
Proof.
  do 4 try destruct p as [p|p|]; try reflexivity;
    cbn [HexString.Raw.of_pos]; rewrite of_pos_lower; reflexivity.
Qed.

Fixpoint of_pos_not_empty (p : positive) (rest : string) {struct p} :
  HexString.Raw.of_pos p rest <> EmptyString.
Proof.
  do 4 try destruct p as [p|p|]; try discriminate;
    cbn [HexString.Raw.of_pos]; apply of_pos_not_empty.
Qed.

Lemma d_to_h_nonneg (d : Z) : 0 <= d -> lower_hex_string (d_to_h d) = true.
Proof.
  intros Hd. destruct d as [|p|p]; [reflexivity| |lia].
  unfold d_to_h, hex, HexString.of_Z, HexString.of_pos.
  rewrite slice_from_2.
  pose proof (of_pos_lower p EmptyString) as Hl.
  destruct (Nat.eqb _ 1); [rewrite lower_hex_string_app|]; now rewrite Hl.
Qed.

(** ["0x" in s]: the two characters occur somewhere in [s]. *)
Fixpoint has_0x (s : string) : bool :=
  match s with
  | String a s' =>
      match s' with
      | String b _ => (Ascii.eqb a "0" && Ascii.eqb b "x") || has_0x s'
      | EmptyString => false
      end
  | EmptyString => false
  end.

Lemma has_0x_cons (a b : ascii) (s : string) :
  has_0x (String a (String b s))
  = (Ascii.eqb a "0" && Ascii.eqb b "x") || has_0x (String b s).
Proof. reflexivity. Qed.

Lemma lower_hex_not_x (c : ascii) : lower_hex c = true -> Ascii.eqb c "x" = false.
Proof.
  intros H. pose proof (forall_ascii _ lower_hex_digit16_all c) as Hi.
  simpl in Hi. rewrite H in Hi. now apply digit16_not_special in Hi.
Qed.

Lemma lower_hex_no_0x (s : string) :
  lower_hex_string s = true -> has_0x s = false.
Proof.
  induction s as [|a s IH]; [reflexivity|]. intros H.
  unfold lower_hex_string in H. cbn [chars list_ascii_of_string forallb] in H.
  apply andb_true_iff in H. destruct H as [_ Hs].
  destruct s as [|b s]; [reflexivity|].
  rewrite has_0x_cons, (IH Hs).
  cbn [chars list_ascii_of_string forallb] in Hs.
  apply andb_true_iff in Hs. destruct Hs as [Hb _].
  rewrite (lower_hex_not_x b Hb). now rewrite andb_false_r.
Qed.

(** No output of [d_to_h] holds ["0x"], also for a negative number, where
    [hex(d)[2:]] is the [x] of ["-0x"] and the digits. *)
Lemma d_to_h_no_0x (d : Z) : has_0x (d_to_h d) = false.
Proof.
  destruct d as [|p|p].
  - reflexivity.
  - apply lower_hex_no_0x, d_to_h_nonneg. lia.
  - unfold d_to_h, hex, HexString.of_Z, HexString.of_pos.
    rewrite slice_from_2.
    pose proof (of_pos_lower p EmptyString) as Hl.
    destruct (HexString.Raw.of_pos p EmptyString) as [|c r] eqn:Hr.
    + now destruct (of_pos_not_empty p EmptyString).
    + cbn [String.length Nat.eqb]. rewrite has_0x_cons.
      now rewrite (lower_hex_no_0x _ Hl).
Qed.

Lemma fold_left_append_lower {A : Type} (f : A -> string) (l : list A)
      (acc : string) :
  lower_hex_string acc = true ->
  (forall x, In x l -> lower_hex_string (f x) = true) ->
  lower_hex_string (fold_left (fun h x => h ++ f x) l acc) = true.
Proof.
  revert acc. induction l as [|x l IH]; intros acc Hacc Hf; [exact Hacc|].
  simpl. apply IH.
  - rewrite lower_hex_string_app, Hacc. apply Hf. now left.
  - intros y Hy. apply Hf. now right.
Qed.

(** [b_to_d] of any string lies below two to the power of its length. *)
Lemma b_to_d_rounds (l : list ascii) (mult decimal : Z) :
  0 < mult ->
  let r := fold_left b_to_d_round l (mult, decimal) in
  fst r = mult * 2 ^ Z.of_nat (List.length l)
  /\ decimal <= snd r <= decimal + mult * (2 ^ Z.of_nat (List.length l) - 1).
Proof.
  revert mult decimal. induction l as [|c l IH]; intros mult decimal Hm.
  - simpl. lia.
  - cbn [fold_left List.length]. rewrite Nat2Z.inj_succ, Z.pow_succ_r by lia.
    assert (Hp : 0 < 2 ^ Z.of_nat (List.length l)) by (apply Z.pow_pos_nonneg; lia).
    assert (Hround : exists decimal',
               b_to_d_round (mult, decimal) c = (mult * 2, decimal')
               /\ decimal <= decimal' <= decimal + mult).
    { unfold b_to_d_round. destruct (Ascii.eqb c "1"); eexists; split;
        try reflexivity; lia. }
    destruct Hround as [decimal' [-> Hd]].
    destruct (IH (mult * 2) decimal' ltac:(lia)) as [Hf Hs].
    cbv zeta. rewrite Hf. split; [ring | nia].
Qed.

Lemma b_to_d_bound (binary : string) :
  0 <= b_to_d binary < 2 ^ Z.of_nat (String.length binary).
Proof.
  unfold b_to_d.
  pose proof (b_to_d_rounds (rev (chars binary)) 1 0 ltac:(lia)) as H.
  cbv zeta in H. rewrite length_rev, length_chars in H. lia.
Qed.

Lemma b_to_d_octet (binary : string) : octet binary -> 0 <= b_to_d binary <= 255.
Proof.
  intros [Hlen _]. pose proof (b_to_d_bound binary) as H.
  rewrite Hlen in H. change (2 ^ Z.of_nat 8) with 256 in H. lia.
Qed.

Lemma ord_byte (c : ascii) : 0 <= ord c <= 255.
Proof. unfold ord. pose proof (N_ascii_bounded c). lia. Qed.

(** C8. For every string [s] of hex digits, parsing ["0x" + s] gives what
    parsing [s] gives, in [hex_to_decimal] (both modes), [hex_to_text] and
    [hex_to_binary]: the prefix is stripped on parse. And no hex output
    holds ["0x"]: not [d_to_h] of any integer, nor what [decimal_to_hex]
    (either mode), [text_to_hex] and [binary_to_hex] return. *)
Theorem hex_prefix_ignored (s : string) :
  all_hex s = true ->
  hex_to_decimal ("0x" ++ s) false = hex_to_decimal s false
  /\ hex_to_decimal ("0x" ++ s) true = hex_to_decimal s true
  /\ hex_to_text ("0x" ++ s) = hex_to_text s
  /\ hex_to_binary ("0x" ++ s) = hex_to_binary s
  /\ (forall d, has_0x (d_to_h d) = false)
  /\ (forall arg as_single_value h,
        decimal_to_hex arg as_single_value = Ok h -> has_0x h = false)
  /\ (forall text, has_0x (text_to_hex text) = false)
  /\ (forall bl h, binary_to_hex bl = Ok h -> has_0x h = false).
Proof.
  intros Hs.
  destruct (hex_prefix_stripped s (all_hex_no_prefix s Hs)) as [H1 [H2 [H3 H4]]].
  do 4 (split; [assumption|]).
  split; [exact d_to_h_no_0x|].
  split; [|split].
  - intros arg [] h; unfold decimal_to_hex.
    { destruct arg as [l|d]; [discriminate|].
      intros [= <-]. apply d_to_h_no_0x. }
    destruct arg as [l|d]; [|discriminate].
    rewrite validate_decimal_range_find.
    destruct (find out_of_range l) eqn:Hf; [discriminate|].
    cbn [bind]. intros [= <-].
    apply lower_hex_no_0x, fold_left_append_lower; [reflexivity|].
    intros d Hd. apply d_to_h_nonneg.
    pose proof (find_none _ _ Hf d Hd) as Hr. unfold out_of_range in Hr. lia.
  - intros text. unfold text_to_hex.
    apply lower_hex_no_0x.
    apply (fold_left_append_lower (fun i => d_to_h (t_to_d i)));
      [reflexivity|].
    intros c _. apply d_to_h_nonneg. unfold t_to_d. apply ord_byte.
  - intros bl h. unfold binary_to_hex.
    rewrite validate_binary_list_find.
    destruct (find malformed_binary bl) eqn:Hf; [discriminate|].
    cbn [bind]. intros [= <-].
    apply lower_hex_no_0x.
    apply (fold_left_append_lower (fun b => d_to_h (b_to_d b)));
      [reflexivity|].
    intros b Hb. apply d_to_h_nonneg.
    pose proof (find_none _ _ Hf b Hb) as Hm.
    apply malformed_binary_iff, b_to_d_octet in Hm. lia.
Qed.

Lemma hex_prefix_ignored_witness :
  hex_to_decimal ("0x" ++ "41") false = hex_to_decimal "41" false
  /\ hex_to_decimal ("0x" ++ "41") true = hex_to_decimal "41" true
  /\ hex_to_text ("0x" ++ "41") = hex_to_text "41"
  /\ hex_to_binary ("0x" ++ "41") = hex_to_binary "41"
  /\ (forall d, has_0x (d_to_h d) = false)
  /\ (forall arg as_single_value h,
        decimal_to_hex arg as_single_value = Ok h -> has_0x h = false)
  /\ (forall text, has_0x (text_to_hex text) = false)
  /\ (forall bl h, binary_to_hex bl = Ok h -> has_0x h = false).
Proof. apply (hex_prefix_ignored "41"). reflexivity. Defined.

(* ================================================================== *)
(** * Malformed hex *)
(* ================================================================== *)

(** ** The default mode: pair by pair *)

(** A string with a character no pair can hold has a pair that [int]
    refuses. *)
Lemma bad_pair (s : string) :
  existsb (fun c => negb (pair_char c)) (chars s) = true ->
  exists p, In p (pairs s) /\ int16 p = Raise ValueError.
Proof.
  induction s as [| a | a b s IH] using string_pair_ind; intros H.
  - discriminate H.
  - simpl in H. rewrite orb_false_r, negb_true_iff in H.
    exists (String a EmptyString). split; [now left|].
    now apply int16_bad_single.
  - cbn [chars list_ascii_of_string existsb] in H.
    rewrite orb_assoc in H. apply orb_true_iff in H. destruct H as [H|H].
    + exists (String a (String b EmptyString)). split; [now left|].
      apply int16_bad_pair.
      apply orb_true_iff in H. rewrite !negb_true_iff in H. exact H.
    + destruct (IH H) as [p [Hin Hp]]. exists p. split; [now right | exact Hp].
Qed.

(** What the loops of the three operations can raise. *)
Definition hex_loop_exn (e : exn) : Prop :=
  e = ValueError \/ exists msg, e = ConversionError msg.

Lemma chr_byte (i : Z) :
  (i <? 0) || (i >? 255) = false -> exists c, chr i = Ok c.
Proof.
  intros H. apply orb_false_iff in H. destruct H as [Hlo Hhi].
  apply Z.ltb_ge in Hlo. rewrite Z.gtb_ltb in Hhi. apply Z.ltb_ge in Hhi.
  unfold chr.
  replace ((0 <=? i) && (i <=? 255)) with true; [eauto|].
  symmetry. apply andb_true_iff. split; now apply Z.leb_le.
Qed.

Lemma except_ValueError_conversion {A : Type} (e : exn) (msg : string) :
  hex_loop_exn e ->
  exists msg',
    try_except_ValueError (@Raise A e) (Raise (ConversionError msg))
    = Raise (ConversionError msg').
Proof.
  intros [->|[msg' ->]]; simpl; eauto.
Qed.

Lemma hex_to_decimal_bad_pair (body : string) :
  existsb (fun c => negb (pair_char c)) (chars body) = true ->
  for_in (pairs body)
    (fun decimal_list i => n <- int16 i ;; Ok (decimal_list ++ [n])%list) []
  = Raise ValueError.
Proof.
  intros H. destruct (bad_pair body H) as [p [Hin Hp]].
  destruct (for_in_raises (fun e => e = ValueError)
              (fun decimal_list i => n <- int16 i ;; Ok (decimal_list ++ [n])%list)
              (pairs body) []) as [e [He ->]].
  - intros dl x e. destruct (int16 x) as [n|e'] eqn:Hx; simpl; [discriminate|].
    intros [= <-]. eapply int16_raises, Hx.
  - exists p. split; [exact Hin|]. intros dl. rewrite Hp. simpl. eauto.
  - exact He.
Qed.

Lemma hex_to_text_bad_pair (body : string) (text : string) :
  existsb (fun c => negb (pair_char c)) (chars body) = true ->
  exists e,
    for_in (pairs body)
      (fun text i =>
         temp_decimal <- int16 i ;;
         if (temp_decimal <? 0) || (temp_decimal >? 255)
         then Raise (hex_out_of_range i)
         else c <- chr temp_decimal ;; Ok (text ++ c))
      text
    = Raise e /\ hex_loop_exn e.
Proof.
  intros H. destruct (bad_pair body H) as [p [Hin Hp]].
  apply for_in_raises.
  - intros t x e. destruct (int16 x) as [n|e'] eqn:Hx; simpl.
    + destruct ((n <? 0) || (n >? 255)) eqn:Hn.
      * intros [= <-]. right. unfold hex_out_of_range. eauto.
      * destruct (chr_byte n Hn) as [c ->]. discriminate.
    + intros [= <-]. left. eapply int16_raises, Hx.
  - exists p. split; [exact Hin|]. intros t. rewrite Hp. simpl. eauto.
Qed.

Lemma hex_to_binary_bad_pair (body : string) (binary_list : list string) :
  existsb (fun c => negb (pair_char c)) (chars body) = true ->
  exists e,
    for_in (pairs body)
      (fun binary_list hex_pair =>
         decimal <- int16 hex_pair ;;
         if (decimal <? 0) || (decimal >? 255)
         then Raise (hex_out_of_range hex_pair)
         else Ok (binary_list ++ [d_to_b decimal])%list)
      binary_list
    = Raise e /\ hex_loop_exn e.
Proof.
  intros H. destruct (bad_pair body H) as [p [Hin Hp]].
  apply for_in_raises.
  - intros t x e. destruct (int16 x) as [n|e'] eqn:Hx; simpl.
    + destruct ((n <? 0) || (n >? 255)); [|discriminate].
      intros [= <-]. right. unfold hex_out_of_range. eauto.
    + intros [= <-]. left. eapply int16_raises, Hx.
  - exists p. split; [exact Hin|]. intros t. rewrite Hp. simpl. eauto.
Qed.

(** ** The pairs [int] accepts *)













(** ** The default mode *)







(** ** The single-value mode: the literals of [int(., 16)] *)

(** Digits of base 16 with single underscores between them. *)
Inductive digit_groups : string -> Prop :=
| groups_digit (d : ascii) :
    is_digit16 d = true -> digit_groups (String d EmptyString)
| groups_next (d : ascii) (s : string) :
    is_digit16 d = true -> digit_groups s -> digit_groups (String d s)
| groups_underscore (d : ascii) (s : string) :
    is_digit16 d = true -> digit_groups s ->
    digit_groups (String d (String underscore s)).

(** What may follow a digit inside the digits: nothing, more digits, or an
    underscore and more digits. *)
Inductive after_digit : string -> Prop :=
| after_nothing : after_digit EmptyString
| after_groups (s : string) : digit_groups s -> after_digit s
| after_underscore (s : string) :
    digit_groups s -> after_digit (String underscore s).

Definition sign16 (s : string) : Prop :=
  s = EmptyString \/ s = "+" \/ s = "-".

Definition prefix16 (s : string) : Prop :=
  s = EmptyString \/ s = "0x" \/ s = "0X" \/ s = "0x_" \/ s = "0X_".

(** A literal of base 16: white space, a sign, a prefix, the digits, white
    space; all but the digits may be missing. *)
Definition literal16 (s : string) : Prop :=
  exists ws1 sign pre ds ws2,
    s = ws1 ++ sign ++ pre ++ ds ++ ws2
    /\ all_space ws1 = true /\ sign16 sign /\ prefix16 pre
    /\ digit_groups ds /\ all_space ws2 = true.

Definition space_facts (a : ascii) : bool :=
  implb (int_space a)
    (negb (is_digit16 a) && negb (is_sign a) && negb (Ascii.eqb a "x")
     && negb (Ascii.eqb a "X") && negb (Ascii.eqb a underscore)).

Lemma space_facts_all : forallb space_facts all_ascii = true.
Proof. vm_compute. reflexivity. Qed.

Lemma int_space_not_special (a : ascii) :
  int_space a = true ->
  is_digit16 a = false /\ is_sign a = false /\ Ascii.eqb a "x" = false
  /\ Ascii.eqb a "X" = false /\ Ascii.eqb a underscore = false.
Proof.
  intros Ha. pose proof (forall_ascii _ space_facts_all a) as H.
  unfold space_facts in H. rewrite Ha in H. simpl in H.
  rewrite !andb_true_iff, !negb_true_iff in H. tauto.
Qed.

Lemma all_space_cons (c : ascii) (s : string) :
  all_space (String c s) = int_space c && all_space s.
Proof. reflexivity. Qed.

Lemma digit_groups_after (d : ascii) (s : string) :
  is_digit16 d = true -> after_digit s -> digit_groups (String d s).
Proof.
  intros Hd [|s' Hs|s' Hs].
  - now apply groups_digit.
  - now apply groups_next.
  - now apply groups_underscore.
Qed.

(** *** What the parser takes is a literal *)

Lemma skip_space_split (s : string) :
  exists ws, s = ws ++ skip_space s /\ all_space ws = true.
Proof.
  induction s as [|c s [ws [IH Hws]]].
  - exists EmptyString. now split.
  - cbn [skip_space]. destruct (int_space c) eqn:Hc.
    + exists (String c ws). split.
      * cbn [append]. now rewrite <- IH.
      * now rewrite all_space_cons, Hc, Hws.
    + exists EmptyString. now split.
Qed.

Lemma read_sign_split (s : string) :
  exists sign, s = sign ++ snd (read_sign s) /\ sign16 sign.
Proof.
  destruct s as [|c s].
  - exists EmptyString. split; [reflexivity | now left].
  - cbn [read_sign]. destruct (Ascii.eqb c "+") eqn:Hp.
    { apply Ascii.eqb_eq in Hp. subst c. exists "+".
      split; [reflexivity | right; now left]. }
    destruct (Ascii.eqb c "-") eqn:Hm.
    { apply Ascii.eqb_eq in Hm. subst c. exists "-".
      split; [reflexivity | right; now right]. }
    exists EmptyString. split; [reflexivity | now left].
Qed.

Lemma skip_prefix16_split (s : string) :
  exists pre, s = pre ++ skip_prefix16 s /\ prefix16 pre.
Proof.
  assert (Hnone : exists pre, s = pre ++ s /\ prefix16 pre).
  { exists EmptyString. split; [reflexivity | now left]. }
  destruct s as [|z [|x s]]; try exact Hnone. cbn [skip_prefix16].
  destruct (Ascii.eqb z "0") eqn:Hz; [|exact Hnone].
  apply Ascii.eqb_eq in Hz. subst z.
  destruct (Ascii.eqb x "x") eqn:Hx.
  { apply Ascii.eqb_eq in Hx. subst x. cbn [andb orb].
    destruct s as [|c s].
    - exists "0x". split; [reflexivity | right; now left].
    - destruct (Ascii.eqb c underscore) eqn:Hc.
      + apply Ascii.eqb_eq in Hc. subst c. exists "0x_".
        split; [reflexivity | right; right; right; now left].
      + exists "0x". split; [reflexivity | right; now left]. }
  destruct (Ascii.eqb x "X") eqn:HX; [|exact Hnone].
  apply Ascii.eqb_eq in HX. subst x. cbn [andb orb].
  destruct s as [|c s].
  - exists "0X". split; [reflexivity | right; right; now left].
  - destruct (Ascii.eqb c underscore) eqn:Hc.
    + apply Ascii.eqb_eq in Hc. subst c. exists "0X_".
      split; [reflexivity | right; right; right; now right].
    + exists "0X". split; [reflexivity | right; right; now left].
Qed.

Lemma scan_digits_first (c : ascii) (s : string) (prev : bool) (acc : Z) :
  is_digit16 c = true ->
  scan_digits (String c s) prev acc
  = scan_digits s false (16 * acc + digit_value c).
Proof.
  intros Hc. cbn [scan_digits].
  destruct (digit16_not_special c Hc) as [_ [_ [_ [_ ->]]]].
  now rewrite (digit16_value c Hc).
Qed.

Lemma scan_digits_split (s : string) (prev : bool) (acc v : Z) (rest : string) :
  scan_digits s prev acc = Some (v, rest) ->
  exists ds,
    s = ds ++ rest /\ if prev then digit_groups ds else after_digit ds.
Proof.
  revert prev acc. induction s as [|c s IH]; intros prev acc.
  - cbn [scan_digits]. destruct prev; [discriminate|]. intros [= _ <-].
    exists EmptyString. split; [reflexivity | constructor].
  - cbn [scan_digits]. destruct (Ascii.eqb c underscore) eqn:Hu.
    + destruct prev; [discriminate|]. intros Hs.
      apply Ascii.eqb_eq in Hu. subst c.
      destruct (IH _ _ Hs) as [ds [-> Hds]].
      exists (String underscore ds). split; [reflexivity|].
      now apply after_underscore.
    + destruct (digit16 c) as [d|] eqn:Hd.
      * intros Hs. destruct (IH _ _ Hs) as [ds [-> Hds]].
        exists (String c ds). split; [reflexivity|].
        assert (Hg : digit_groups (String c ds)).
        { apply digit_groups_after; [|exact Hds].
          unfold is_digit16. now rewrite Hd. }
        destruct prev; [exact Hg | now apply after_groups].
      * destruct prev; [discriminate|]. intros [= _ <-].
        exists EmptyString. split; [reflexivity | constructor].
Qed.

Lemma int16_literal (s : string) (n : Z) : int16 s = Ok n -> literal16 s.
Proof.
  unfold int16. intros H.
  destruct (skip_space_split s) as [ws1 [Hs Hws1]].
  destruct (read_sign_split (skip_space s)) as [sign [Hsign Hsg]].
  destruct (read_sign (skip_space s)) as [negative s2]. cbn [snd] in Hsign.
  destruct (skip_prefix16_split s2) as [pre [Hpre Hpr]].
  destruct (skip_prefix16 s2) as [|c s3]; [discriminate|].
  destruct (is_digit16 c) eqn:Hc; [|discriminate].
  destruct (scan_digits (String c s3) false 0) as [[v rest]|] eqn:Hscan;
    [|discriminate].
  destruct (all_space rest) eqn:Hrest; [|discriminate].
  rewrite (scan_digits_first c s3 false 0 Hc) in Hscan.
  destruct (scan_digits_split _ _ _ _ _ Hscan) as [ds [Hds Hafter]].
  exists ws1, sign, pre, (String c ds), rest.
  split; [|repeat split; try assumption; now apply digit_groups_after].
  rewrite Hs at 1. rewrite Hsign, Hpre, Hds. reflexivity.
Qed.

(** *** A literal is taken by the parser *)

Lemma skip_space_app (ws t : string) :
  all_space ws = true -> skip_space (ws ++ t) = skip_space t.
Proof.
  induction ws as [|c ws IH]; [reflexivity|].
  rewrite all_space_cons. intros H. apply andb_true_iff in H.
  destruct H as [Hc Hws]. cbn [append skip_space]. rewrite Hc. now apply IH.
Qed.

Lemma scan_digits_space (ws : string) (acc : Z) :
  all_space ws = true -> scan_digits ws false acc = Some (acc, ws).
Proof.
  destruct ws as [|c ws]; [reflexivity|].
  rewrite all_space_cons. intros H. apply andb_true_iff in H.
  destruct H as [Hc _]. cbn [scan_digits].
  destruct (int_space_not_special c Hc) as [Hd [_ [_ [_ ->]]]].
  unfold is_digit16 in Hd. now destruct (digit16 c).
Qed.

Lemma scan_digits_groups (ds ws : string) :
  digit_groups ds -> all_space ws = true ->
  forall prev acc, exists v, scan_digits (ds ++ ws) prev acc = Some (v, ws).
Proof.
  intros Hds Hws. induction Hds as [d Hd|d s Hd Hs IH|d s Hd Hs IH];
    intros prev acc; cbn [append]; rewrite (scan_digits_first d _ _ _ Hd).
  - rewrite (scan_digits_space ws _ Hws). eauto.
  - apply IH.
  - cbn [scan_digits]. rewrite Ascii.eqb_refl. apply IH.
Qed.

(** The head of the digits, and that no [x] follows it. *)
Definition no_x (s : string) : Prop :=
  match s with
  | String c _ => Ascii.eqb c "x" || Ascii.eqb c "X" = false
  | EmptyString => True
  end.

Lemma digit_groups_head (ds ws : string) :
  digit_groups ds -> all_space ws = true ->
  exists d t, ds ++ ws = String d t /\ is_digit16 d = true /\ no_x t.
Proof.
  intros Hds Hws. destruct Hds as [d Hd|d s Hd Hs|d s Hd Hs];
    exists d; eexists; (split; [reflexivity|]); (split; [exact Hd|]).
  - cbn [append]. destruct ws as [|c ws]; [exact I|].
    rewrite all_space_cons in Hws. apply andb_true_iff in Hws.
    destruct Hws as [Hc _]. cbn [no_x].
    destruct (int_space_not_special c Hc) as [_ [_ [-> [-> _]]]]. reflexivity.
  - destruct Hs as [d' Hd'|d' s' Hd' _|d' s' Hd' _]; cbn [append no_x];
      destruct (digit16_not_special d' Hd') as [_ [_ [-> [-> _]]]]; reflexivity.
  - reflexivity.
Qed.

Lemma skip_prefix16_none (d : ascii) (t : string) :
  no_x t -> skip_prefix16 (String d t) = String d t.
Proof.
  destruct t as [|x t]; [reflexivity|]. cbn [no_x skip_prefix16].
  intros ->. now rewrite andb_false_r.
Qed.

Lemma skip_prefix16_app (pre ds ws : string) :
  prefix16 pre -> digit_groups ds -> all_space ws = true ->
  skip_prefix16 (pre ++ ds ++ ws) = ds ++ ws.
Proof.
  intros Hpre Hds Hws.
  destruct (digit_groups_head ds ws Hds Hws) as [d [t [-> [Hd Ht]]]].
  destruct (digit16_not_special d Hd) as [_ [_ [_ [_ Hu]]]].
  destruct Hpre as [->|[->|[->|[->| ->]]]]; cbn [append skip_prefix16].
  - now apply skip_prefix16_none.
  - cbn. now rewrite Hu.
  - cbn. now rewrite Hu.
  - reflexivity.
  - reflexivity.
Qed.

Lemma read_sign_app (sign pre ds ws : string) :
  sign16 sign -> prefix16 pre -> digit_groups ds -> all_space ws = true ->
  exists negative,
    read_sign (sign ++ pre ++ ds ++ ws) = (negative, pre ++ ds ++ ws)
    /\ skip_space (sign ++ pre ++ ds ++ ws) = sign ++ pre ++ ds ++ ws.
Proof.
  intros Hsign Hpre Hds Hws.
  assert (Htail : exists c t, pre ++ ds ++ ws = String c t
                              /\ is_digit16 c = true).
  { destruct (digit_groups_head ds ws Hds Hws) as [d [t [-> [Hd _]]]].
    destruct Hpre as [->|[->|[->|[->| ->]]]]; cbn [append]; eauto. }
  destruct Htail as [c [t [-> Hc]]].
  destruct (digit16_not_special c Hc) as [Hsp [Hsg _]].
  destruct Hsign as [->|[->| ->]]; cbn [append].
  - exists false. cbn [read_sign skip_space]. rewrite Hsp.
    unfold is_sign in Hsg. apply orb_false_iff in Hsg.
    destruct Hsg as [-> ->]. now split.
  - exists false. now split.
  - exists true. now split.
Qed.

Lemma literal_int16 (s : string) : literal16 s -> exists n, int16 s = Ok n.
Proof.
  intros [ws1 [sign [pre [ds [ws2 [-> [Hws1 [Hsign [Hpre [Hds Hws2]]]]]]]]]].
  unfold int16. rewrite (skip_space_app _ _ Hws1).
  destruct (read_sign_app sign pre ds ws2 Hsign Hpre Hds Hws2)
    as [negative [Hread ->]].
  rewrite Hread, (skip_prefix16_app pre ds ws2 Hpre Hds Hws2).
  destruct (scan_digits_groups ds ws2 Hds Hws2 false 0) as [v Hscan].
  rewrite Hscan, Hws2.
  destruct (digit_groups_head ds ws2 Hds Hws2) as [d [t [-> [-> _]]]].
  eauto.
Qed.

(** [int(s, 16)] returns exactly on the literals. *)
Lemma int16_iff_literal (s : string) :
  (exists n, int16 s = Ok n) <-> literal16 s.
Proof.
  split; [intros [n H]; now apply (int16_literal s n) | apply literal_int16].
Qed.












(* ================================================================== *)
(** * Further properties: single values *)
(* ================================================================== *)

(** ** [d_to_b] on every integer *)

Lemma d_to_b_round_one (mult remaining : Z) (s : string) (i : nat) :
  mult <= remaining ->
  d_to_b_round (mult, s, remaining) i = (mult / 2, s ++ "1", remaining - mult).
Proof.
  intros H. unfold d_to_b_round.
  replace (remaining - mult >=? 0) with true; [reflexivity|].
  symmetry. rewrite Z.geb_leb. apply Z.leb_le. lia.
Qed.

Lemma d_to_b_round_zero (mult remaining : Z) (s : string) (i : nat) :
  remaining < mult ->
  d_to_b_round (mult, s, remaining) i = (mult / 2, s ++ "0", remaining).
Proof.
  intros H. unfold d_to_b_round.
  replace (remaining - mult >=? 0) with false; [reflexivity|].
  symmetry. rewrite Z.geb_leb. apply Z.leb_gt. lia.
Qed.

Ltac round_zero m m' :=
  rewrite (d_to_b_round_zero m) by lia; change (m / 2) with m'.

Ltac round_one m m' :=
  rewrite (d_to_b_round_one m) by lia; change (m / 2) with m'.

Lemma d_to_b_low (d : Z) : d <= 0 -> d_to_b d = "00000000".
Proof.
  intros H. unfold d_to_b.
  change (range 0 8 1) with [0; 1; 2; 3; 4; 5; 6; 7]%nat.
  cbn [fold_left].
  round_zero 128 64. round_zero 64 32. round_zero 32 16. round_zero 16 8.
  round_zero 8 4. round_zero 4 2. round_zero 2 1. round_zero 1 0.
  reflexivity.
Qed.

Lemma d_to_b_high (d : Z) : 255 <= d -> d_to_b d = "11111111".
Proof.
  intros H. unfold d_to_b.
  change (range 0 8 1) with [0; 1; 2; 3; 4; 5; 6; 7]%nat.
  cbn [fold_left].
  round_one 128 64. round_one 64 32. round_one 32 16. round_one 16 8.
  round_one 8 4. round_one 4 2. round_one 2 1. round_one 1 0.
  reflexivity.
Qed.

(** The shape of the encodings of a byte value, checked on all of them:
    the binary string passes the test of the binary operations, and the hex
    string is two lowercase digits whose value is the byte. *)
Definition byte_shape (d : Z) : bool :=
  negb (malformed_binary (d_to_b d))
  && match d_to_h d with
     | String a (String b EmptyString) =>
         lower_hex a && lower_hex b && is_digit16 a && is_digit16 b
         && (16 * digit_value a + digit_value b =? d)
     | _ => false
     end.

Lemma byte_shape_all : forallb byte_shape bytes = true.
Proof. vm_compute. reflexivity. Qed.

Lemma d_to_b_byte_octet (d : Z) : 0 <= d <= 255 -> octet (d_to_b d).
Proof.
  intros Hd. pose proof (forall_bytes _ byte_shape_all d Hd) as H.
  unfold byte_shape in H. apply andb_true_iff in H. destruct H as [H _].
  apply malformed_binary_iff. now apply negb_true_iff.
Qed.

Lemma d_to_h_byte (d : Z) :
  0 <= d <= 255 ->
  exists a b,
    d_to_h d = String a (String b EmptyString)
    /\ lower_hex a = true /\ lower_hex b = true
    /\ is_digit16 a = true /\ is_digit16 b = true
    /\ 16 * digit_value a + digit_value b = d.
Proof.
  intros Hd. pose proof (forall_bytes _ byte_shape_all d Hd) as H.
  unfold byte_shape in H. apply andb_true_iff in H. destruct H as [_ H].
  destruct (d_to_h d) as [|a [|b [|c r]]]; try discriminate H.
  exists a, b. rewrite !andb_true_iff, Z.eqb_eq in H. tauto.
Qed.

Lemma b_to_d_d_to_b (d : Z) : 0 <= d <= 255 -> b_to_d (d_to_b d) = d.
Proof.
  intros Hd. pose proof (forall_bytes _ round_trip_bits_hex_all d Hd) as H.
  unfold round_trip_bits_hex in H. apply andb_true_iff in H.
  now apply Z.eqb_eq.
Qed.

(** X1. [d_to_b] raises nothing and checks nothing: on every integer it
    returns eight characters ['0'] or ['1'], and outside 0..255 it
    saturates: it gives ["00000000"] for every [d] below 0 and
    ["11111111"] for every [d] above 255, which is what it gives for the
    nearest byte value. *)
Theorem d_to_b_saturates (d : Z) :
  octet (d_to_b d)
  /\ (d <= 0 -> d_to_b d = "00000000")
  /\ (255 <= d -> d_to_b d = "11111111")
  /\ d_to_b d = d_to_b (Z.max 0 (Z.min 255 d)).
Proof.
  assert (Hcases : d <= 0 \/ 255 <= d \/ 0 <= d <= 255) by lia.
  split; [|split; [apply d_to_b_low|split; [apply d_to_b_high|]]].
  - destruct Hcases as [H|[H|H]].
    + rewrite (d_to_b_low d H). now apply malformed_binary_iff.
    + rewrite (d_to_b_high d H). now apply malformed_binary_iff.
    + now apply d_to_b_byte_octet.
  - destruct Hcases as [H|[H|H]].
    + rewrite (d_to_b_low d H).
      replace (Z.max 0 (Z.min 255 d)) with 0 by lia. reflexivity.
    + rewrite (d_to_b_high d H).
      replace (Z.max 0 (Z.min 255 d)) with 255 by lia. reflexivity.
    + replace (Z.max 0 (Z.min 255 d)) with d by lia. reflexivity.
Qed.

(** ** [b_to_d] on every string *)

Lemma b_to_d_rounds_from (l : list ascii) (mult decimal : Z) :
  fold_left b_to_d_round l (mult, decimal)
  = (mult * 2 ^ Z.of_nat (List.length l),
     decimal + mult * snd (fold_left b_to_d_round l (1, 0))).
Proof.
  revert mult decimal. induction l as [|c l IH]; intros mult decimal.
  - simpl. f_equal; lia.
  - cbn [fold_left List.length].
    rewrite Nat2Z.inj_succ, Z.pow_succ_r by lia.
    unfold b_to_d_round at 2 4.
    destruct (Ascii.eqb c "1").
    + rewrite (IH (mult * 2) (decimal + mult)), (IH (1 * 2) (0 + 1)).
      cbn [snd]. f_equal; ring.
    + rewrite (IH (mult * 2) decimal), (IH (1 * 2) 0).
      cbn [snd]. f_equal; ring.
Qed.

(** X2. [b_to_d] reads any string as a binary numeral, most significant
    character first, taking every character other than ['1'] for a zero: a
    character appended doubles the value and adds the bit. It checks neither
    the length nor the characters, and its value lies below two to the
    power of the length. *)
Theorem b_to_d_positional (binary : string) (c : ascii) :
  b_to_d EmptyString = 0
  /\ b_to_d (binary ++ String c EmptyString)
     = 2 * b_to_d binary + (if Ascii.eqb c "1" then 1 else 0)
  /\ 0 <= b_to_d binary < 2 ^ Z.of_nat (String.length binary).
Proof.
  split; [reflexivity|]. split; [|apply b_to_d_bound].
  unfold b_to_d. rewrite chars_app, rev_app_distr. cbn [chars list_ascii_of_string rev app fold_left].
  unfold b_to_d_round at 2.
  destruct (Ascii.eqb c "1"); rewrite b_to_d_rounds_from; cbn [snd]; ring.
Qed.

(* ================================================================== *)
(** * Further properties: round trips of lists *)
(* ================================================================== *)

(** An octet is the binary string of its value. *)
Lemma d_to_b_b_to_d (binary : string) :
  octet binary -> d_to_b (b_to_d binary) = binary.
Proof.
  intros [Hlen Hall].
  destruct binary as [|c1 [|c2 [|c3 [|c4 [|c5 [|c6 [|c7 [|c8 [|c9 r]]]]]]]]];
    try discriminate Hlen.
  cbn [chars list_ascii_of_string] in Hall.
  destruct (Hall c1 ltac:(simpl; tauto)) as [-> | ->];
  destruct (Hall c2 ltac:(simpl; tauto)) as [-> | ->];
  destruct (Hall c3 ltac:(simpl; tauto)) as [-> | ->];
  destruct (Hall c4 ltac:(simpl; tauto)) as [-> | ->];
  destruct (Hall c5 ltac:(simpl; tauto)) as [-> | ->];
  destruct (Hall c6 ltac:(simpl; tauto)) as [-> | ->];
  destruct (Hall c7 ltac:(simpl; tauto)) as [-> | ->];
  destruct (Hall c8 ltac:(simpl; tauto)) as [-> | ->];
  vm_compute; reflexivity.
Qed.

Lemma decimal_to_binary_ok (l : list Z) :
  (forall d, In d l -> 0 <= d <= 255) ->
  decimal_to_binary l = Ok (map d_to_b l).
Proof.
  intros H. unfold decimal_to_binary.
  rewrite (validate_decimal_range_ok l H). cbn [bind].
  now rewrite fold_left_snoc.
Qed.

Lemma binary_to_decimal_ok (bl : list string) :
  (forall b, In b bl -> octet b) ->
  binary_to_decimal bl = Ok (map b_to_d bl).
Proof.
  intros H. unfold binary_to_decimal.
  rewrite (validate_binary_list_ok bl H). cbn [bind].
  now rewrite fold_left_snoc.
Qed.

Lemma map_id_on {A : Type} (f : A -> A) (l : list A) :
  (forall x, In x l -> f x = x) -> map f l = l.
Proof.
  intros H. induction l as [|x l IH]; [reflexivity|].
  simpl. rewrite H by (now left). rewrite IH; [reflexivity|].
  intros y Hy. apply H. now right.
Qed.

(** X3. For a list of byte values, [decimal_to_binary] returns one octet per
    value and [binary_to_decimal] brings the list back. *)
Theorem decimal_binary_list_round_trip (l : list Z) :
  (forall d, In d l -> 0 <= d <= 255) ->
  exists binary_list,
    decimal_to_binary l = Ok binary_list
    /\ List.length binary_list = List.length l
    /\ (forall b, In b binary_list -> octet b)
    /\ binary_to_decimal binary_list = Ok l.
Proof.
  intros H. exists (map d_to_b l).
  assert (Hoct : forall b, In b (map d_to_b l) -> octet b).
  { intros b Hb. apply in_map_iff in Hb. destruct Hb as [d [<- Hd]].
    apply d_to_b_byte_octet, H, Hd. }
  split; [now apply decimal_to_binary_ok|].
  split; [apply length_map|]. split; [exact Hoct|].
  rewrite (binary_to_decimal_ok _ Hoct), map_map.
  f_equal. apply map_id_on. intros d Hd. apply b_to_d_d_to_b, H, Hd.
Qed.

Lemma decimal_binary_list_round_trip_witness :
  exists binary_list,
    decimal_to_binary [0; 65; 255] = Ok binary_list
    /\ List.length binary_list = List.length [0; 65; 255]
    /\ (forall b, In b binary_list -> octet b)
    /\ binary_to_decimal binary_list = Ok [0; 65; 255].
Proof.
  apply (decimal_binary_list_round_trip [0; 65; 255]).
  intros d Hd. simpl in Hd. intuition lia.
Defined.

(** X4. For a list of octets, [binary_to_decimal] returns byte values and
    [decimal_to_binary] brings the list of octets back. *)
Theorem binary_decimal_list_round_trip (binary_list : list string) :
  (forall b, In b binary_list -> octet b) ->
  exists l,
    binary_to_decimal binary_list = Ok l
    /\ (forall d, In d l -> 0 <= d <= 255)
    /\ decimal_to_binary l = Ok binary_list.
Proof.
  intros H. exists (map b_to_d binary_list).
  assert (Hbytes : forall d, In d (map b_to_d binary_list) -> 0 <= d <= 255).
  { intros d Hd. apply in_map_iff in Hd. destruct Hd as [b [<- Hb]].
    apply b_to_d_octet, H, Hb. }
  split; [now apply binary_to_decimal_ok|]. split; [exact Hbytes|].
  rewrite (decimal_to_binary_ok _ Hbytes), map_map.
  f_equal. apply map_id_on. intros b Hb. apply d_to_b_b_to_d, H, Hb.
Qed.

Lemma binary_decimal_list_round_trip_witness :
  exists l,
    binary_to_decimal ["01000001"; "11111111"] = Ok l
    /\ (forall d, In d l -> 0 <= d <= 255)
    /\ decimal_to_binary l = Ok ["01000001"; "11111111"].
Proof.
  apply (binary_decimal_list_round_trip ["01000001"; "11111111"]).
  intros b [<-|[<-|[]]]; apply malformed_binary_iff; reflexivity.
Defined.

(** ** Loops that append strings *)

(** The concatenation of a list of strings. *)
Definition join (ss : list string) : string := fold_right append EmptyString ss.

Lemma fold_left_append {A : Type} (f : A -> string) (l : list A) (acc : string) :
  fold_left (fun h x => h ++ f x) l acc = acc ++ join (map f l).
Proof.
  revert acc. induction l as [|x l IH]; intros acc; simpl.
  - now rewrite append_nil_r.
  - now rewrite IH, append_assoc.
Qed.

Lemma for_in_append {A : Type} (f : A -> string)
      (body : string -> A -> result string) (l : list A) (acc : string) :
  (forall acc x, In x l -> body acc x = Ok (acc ++ f x)) ->
  for_in l body acc = Ok (acc ++ join (map f l)).
Proof.
  revert acc. induction l as [|x l IH]; intros acc H; simpl.
  - now rewrite append_nil_r.
  - rewrite H by (now left). cbn [bind].
    rewrite IH by (intros; apply H; now right).
    now rewrite append_assoc.
Qed.

Lemma length_append (s t : string) :
  String.length (s ++ t) = (String.length s + String.length t)%nat.
Proof. induction s as [|c s IH]; simpl; [reflexivity | now rewrite IH]. Qed.

(** ** Text of byte values *)

(** The character of a byte value. *)
Definition byte_char (d : Z) : ascii := ascii_of_N (Z.to_N d).

Definition one_char (c : ascii) : string := String c EmptyString.

Lemma join_one_char (cs : list ascii) :
  join (map one_char cs) = string_of_list_ascii cs.
Proof. induction cs as [|c cs IH]; simpl; [reflexivity | now rewrite IH]. Qed.

Lemma chr_of_byte (d : Z) : 0 <= d <= 255 -> chr d = Ok (one_char (byte_char d)).
Proof.
  intros H. unfold chr.
  replace ((0 <=? d) && (d <=? 255)) with true; [reflexivity|].
  symmetry. apply andb_true_iff. split; apply Z.leb_le; lia.
Qed.

Lemma ord_byte_char (d : Z) : 0 <= d <= 255 -> ord (byte_char d) = d.
Proof.
  intros H. unfold ord, byte_char. rewrite N_ascii_embedding by lia. lia.
Qed.

Lemma byte_char_ord (c : ascii) : byte_char (ord c) = c.
Proof. unfold ord, byte_char. rewrite N2Z.id. apply ascii_N_embedding. Qed.

Lemma chars_of_list (cs : list ascii) : chars (string_of_list_ascii cs) = cs.
Proof. apply list_ascii_of_string_of_list_ascii. Qed.

Lemma string_of_chars (s : string) : string_of_list_ascii (chars s) = s.
Proof. apply string_of_list_ascii_of_string. Qed.

Lemma decimal_to_text_ok (l : list Z) :
  (forall d, In d l -> 0 <= d <= 255) ->
  decimal_to_text l = Ok (string_of_list_ascii (map byte_char l)).
Proof.
  intros H. unfold decimal_to_text.
  rewrite (validate_decimal_range_ok l H). cbn [bind].
  rewrite (for_in_append (fun d => one_char (byte_char d))).
  - cbn [append]. now rewrite <- join_one_char, map_map.
  - intros acc d Hd. unfold d_to_t. now rewrite (chr_of_byte d (H d Hd)).
Qed.

(** ** Hex of byte values *)

Lemma decimal_to_hex_ok (l : list Z) :
  (forall d, In d l -> 0 <= d <= 255) ->
  decimal_to_hex (DecList l) false = Ok (join (map d_to_h l)).
Proof.
  intros H. unfold decimal_to_hex.
  rewrite (validate_decimal_range_ok l H). cbn [bind].
  now rewrite fold_left_append.
Qed.

Lemma hex_of_bytes (l : list Z) :
  (forall d, In d l -> 0 <= d <= 255) ->
  all_hex (join (map d_to_h l)) = true
  /\ pair_values (join (map d_to_h l)) = l
  /\ String.length (join (map d_to_h l)) = (2 * List.length l)%nat.
Proof.
  induction l as [|d l IH]; intros H; [repeat split|].
  destruct (d_to_h_byte d (H d (or_introl eq_refl)))
    as [a [b [Hab [_ [_ [Ha [Hb Hv]]]]]]].
  destruct IH as [IH1 [IH2 IH3]]; [intros; apply H; now right|].
  cbn [map join fold_right]. fold (join (map d_to_h l)). rewrite Hab.
  cbn [append]. split; [|split].
  - apply all_hex_cons. split; [exact Ha|]. apply all_hex_cons. now split.
  - cbn [pair_values]. now rewrite Hv, IH2.
  - cbn [String.length List.length]. rewrite IH3. lia.
Qed.

(** The loop of [hex_to_text] over the hex of a list of byte values. *)
Lemma hex_to_text_loop (l : list Z) (acc : string) :
  (forall d, In d l -> 0 <= d <= 255) ->
  for_in (pairs (join (map d_to_h l)))
    (fun text i =>
       temp_decimal <- int16 i ;;
       if (temp_decimal <? 0) || (temp_decimal >? 255)
       then Raise (hex_out_of_range i)
       else c <- chr temp_decimal ;; Ok (text ++ c))
    acc
  = Ok (acc ++ string_of_list_ascii (map byte_char l)).
Proof.
  revert acc. induction l as [|d l IH]; intros acc H.
  - simpl. now rewrite append_nil_r.
  - pose proof (H d (or_introl eq_refl)) as Hd.
    destruct (d_to_h_byte d Hd) as [a [b [Hab [_ [_ [Ha [Hb Hv]]]]]]].
    cbn [map join fold_right]. fold (join (map d_to_h l)). rewrite Hab.
    cbn [append pairs for_in].
    rewrite (int16_two_digits a b _ _ (digit16_value a Ha) (digit16_value b Hb)).
    rewrite Hv. cbn [bind].
    replace ((d <? 0) || (d >? 255)) with false.
    + rewrite (chr_of_byte d Hd). cbn [bind].
      rewrite IH by (intros; apply H; now right).
      cbn [map string_of_list_ascii]. unfold one_char.
      now rewrite append_assoc.
    + symmetry. apply orb_false_iff. split; [apply Z.ltb_ge; lia|].
      rewrite Z.gtb_ltb. apply Z.ltb_ge. lia.
Qed.

Lemma hex_to_binary_loop (l : list Z) (acc : list string) :
  (forall d, In d l -> 0 <= d <= 255) ->
  for_in (pairs (join (map d_to_h l)))
    (fun binary_list hex_pair =>
       decimal <- int16 hex_pair ;;
       if (decimal <? 0) || (decimal >? 255)
       then Raise (hex_out_of_range hex_pair)
       else Ok (binary_list ++ [d_to_b decimal])%list)
    acc
  = Ok (acc ++ map d_to_b l)%list.
Proof.
  revert acc. induction l as [|d l IH]; intros acc H.
  - simpl. now rewrite app_nil_r.
  - pose proof (H d (or_introl eq_refl)) as Hd.
    destruct (d_to_h_byte d Hd) as [a [b [Hab [_ [_ [Ha [Hb Hv]]]]]]].
    cbn [map join fold_right]. fold (join (map d_to_h l)). rewrite Hab.
    cbn [append pairs for_in].
    rewrite (int16_two_digits a b _ _ (digit16_value a Ha) (digit16_value b Hb)).
    rewrite Hv. cbn [bind].
    replace ((d <? 0) || (d >? 255)) with false.
    + cbn [bind]. rewrite IH by (intros; apply H; now right).
      now rewrite <- app_assoc.
    + symmetry. apply orb_false_iff. split; [apply Z.ltb_ge; lia|].
      rewrite Z.gtb_ltb. apply Z.ltb_ge. lia.
Qed.

Lemma hex_to_text_of_bytes (l : list Z) :
  (forall d, In d l -> 0 <= d <= 255) ->
  hex_to_text (join (map d_to_h l)) = Ok (string_of_list_ascii (map byte_char l)).
Proof.
  intros H. destruct (hex_of_bytes l H) as [Hhex [_ Hlen]].
  unfold hex_to_text. rewrite Hlen.
  destruct l as [|d l]; [reflexivity|].
  cbn [List.length Nat.mul Nat.add Nat.eqb].
  rewrite (strip_0x_plain _ (all_hex_no_prefix _ Hhex)), hex_pairs_pairs.
  now rewrite (hex_to_text_loop (d :: l) EmptyString H).
Qed.

Lemma hex_to_binary_of_bytes (l : list Z) :
  (forall d, In d l -> 0 <= d <= 255) ->
  hex_to_binary (join (map d_to_h l)) = Ok (map d_to_b l).
Proof.
  intros H. destruct (hex_of_bytes l H) as [Hhex _].
  unfold hex_to_binary. cbv zeta.
  rewrite (strip_0x_plain _ (all_hex_no_prefix _ Hhex)), hex_pairs_pairs.
  now rewrite (hex_to_binary_loop l [] H).
Qed.

(** X5. The hex string [decimal_to_hex] returns for a list of byte values
    has two characters per value, and each hex operation decodes it:
    [hex_to_decimal] gives the list back, [hex_to_text] gives what
    [decimal_to_text] gives for the list, and [hex_to_binary] what
    [decimal_to_binary] gives. *)
Theorem decimal_hex_list_round_trip (l : list Z) :
  (forall d, In d l -> 0 <= d <= 255) ->
  exists hex_string,
    decimal_to_hex (DecList l) false = Ok hex_string
    /\ String.length hex_string = (2 * List.length l)%nat
    /\ hex_to_decimal hex_string false = Ok (DecList l)
    /\ hex_to_text hex_string = decimal_to_text l
    /\ hex_to_binary hex_string = decimal_to_binary l.
Proof.
  intros H. exists (join (map d_to_h l)).
  destruct (hex_of_bytes l H) as [Hhex [Hval Hlen]].
  split; [now apply decimal_to_hex_ok|]. split; [exact Hlen|].
  split; [now rewrite hex_to_decimal_digits, Hval|].
  split.
  - now rewrite hex_to_text_of_bytes, decimal_to_text_ok.
  - now rewrite hex_to_binary_of_bytes, decimal_to_binary_ok.
Qed.

Lemma decimal_hex_list_round_trip_witness :
  exists hex_string,
    decimal_to_hex (DecList [72; 101; 108; 108; 111]) false = Ok hex_string
    /\ String.length hex_string
       = (2 * List.length [72; 101; 108; 108; 111])%nat
    /\ hex_to_decimal hex_string false = Ok (DecList [72; 101; 108; 108; 111])
    /\ hex_to_text hex_string = decimal_to_text [72; 101; 108; 108; 111]
    /\ hex_to_binary hex_string = decimal_to_binary [72; 101; 108; 108; 111].
Proof.
  apply (decimal_hex_list_round_trip [72; 101; 108; 108; 111]).
  intros d Hd. simpl in Hd. intuition lia.
Defined.

(* ================================================================== *)
(** * Further properties: text *)
(* ================================================================== *)

Lemma bytes_of_text (cs : list ascii) :
  forall d, In d (map ord cs) -> 0 <= d <= 255.
Proof.
  intros d Hd. apply in_map_iff in Hd. destruct Hd as [c [<- _]].
  apply ord_byte.
Qed.

Lemma text_of_bytes_of_text (cs : list ascii) :
  string_of_list_ascii (map byte_char (map ord cs)) = string_of_list_ascii cs.
Proof.
  rewrite map_map. f_equal. apply map_id_on. intros c _. apply byte_char_ord.
Qed.

(** X6. From text to decimal and back: [decimal_to_text] of
    [text_to_decimal(text)] never raises and returns the text without its
    leading and trailing line feeds, [text.strip("\n")]. *)
Theorem text_decimal_text (text : string) :
  decimal_to_text (text_to_decimal text) = Ok (strip nl_set text).
Proof.
  rewrite text_to_decimal_map.
  rewrite (decimal_to_text_ok _ (bytes_of_text _)).
  now rewrite text_of_bytes_of_text, string_of_chars.
Qed.

Lemma strip_nothing (s : string) :
  (forall t, s <> String newline t) -> (forall t, s <> t ++ nl_set) ->
  strip nl_set s = s.
Proof.
  intros H1 H2. pose proof (strip_newlines 0 0 s H1 H2) as H.
  cbn [newlines append] in H. now rewrite append_nil_r in H.
Qed.

Lemma byte_char_newline (d : Z) :
  0 <= d <= 255 -> byte_char d = newline -> d = 10.
Proof.
  intros Hd H. rewrite <- (ord_byte_char d Hd), H. reflexivity.
Qed.

(** X7. From decimal to text and back, for a whole list: when the values are
    bytes and neither the first nor the last is 10 (the line feed),
    [text_to_decimal(decimal_to_text(l))] is [l]; a 10 inside the list is
    kept. *)
Theorem decimal_text_list_round_trip (l : list Z) :
  (forall d, In d l -> 0 <= d <= 255) ->
  hd 0 l <> 10 -> last l 0 <> 10 ->
  exists text,
    decimal_to_text l = Ok text
    /\ String.length text = List.length l
    /\ text_to_decimal text = l.
Proof.
  intros H Hfirst Hlast.
  exists (string_of_list_ascii (map byte_char l)).
  split; [now apply decimal_to_text_ok|].
  split; [now rewrite <- length_chars, chars_of_list, length_map|].
  rewrite text_to_decimal_map, strip_nothing.
  - rewrite chars_of_list, map_map. apply map_id_on.
    intros d Hd. apply ord_byte_char, H, Hd.
  - intros t Ht. apply (f_equal chars) in Ht. rewrite chars_of_list in Ht.
    destruct l as [|d l]; [discriminate Ht|].
    cbn in Ht. injection Ht as Hd _.
    apply Hfirst. cbn [hd]. apply byte_char_newline; [|exact Hd].
    apply H. now left.
  - intros t Ht. apply (f_equal chars) in Ht.
    rewrite chars_of_list, chars_app in Ht. cbn [chars list_ascii_of_string nl_set] in Ht.
    apply Hlast.
    assert (Hl : last (map byte_char l) newline = newline)
      by (rewrite Ht; apply last_last).
    destruct (exists_last (l := l)) as [l' [d Hd]].
    { intros ->. cbn in Ht. now destruct (chars t). }
    subst l. rewrite last_last. rewrite map_app in Hl. cbn [map] in Hl.
    rewrite last_last in Hl.
    apply byte_char_newline; [|exact Hl].
    apply H, in_or_app. right. now left.
Qed.

Lemma decimal_text_list_round_trip_witness :
  exists text,
    decimal_to_text [72; 10; 105] = Ok text
    /\ String.length text = List.length [72; 10; 105]
    /\ text_to_decimal text = [72; 10; 105].
Proof.
  apply (decimal_text_list_round_trip [72; 10; 105]).
  - intros d Hd. simpl in Hd. intuition lia.
  - simpl. lia.
  - simpl. lia.
Defined.

Lemma text_to_hex_join (text : string) :
  text_to_hex text = join (map d_to_h (map ord (chars text))).
Proof.
  unfold text_to_hex.
  rewrite (fold_left_append (fun i => d_to_h (t_to_d i))). cbn [append].
  now rewrite map_map.
Qed.

(** X8. From text to hex and back: [hex_to_text(text_to_hex(text))] is the
    text, for every text of code points 0..255 (line feeds included:
    nothing is stripped here); the hex string has two characters per
    character of the text, and [hex_to_decimal] reads the code points off
    it. *)
Theorem text_hex_round_trip (text : string) :
  hex_to_text (text_to_hex text) = Ok text
  /\ String.length (text_to_hex text) = (2 * String.length text)%nat
  /\ hex_to_decimal (text_to_hex text) false
     = Ok (DecList (map ord (chars text))).
Proof.
  rewrite text_to_hex_join.
  pose proof (bytes_of_text (chars text)) as H.
  destruct (hex_of_bytes _ H) as [Hhex [Hval Hlen]].
  split; [|split].
  - rewrite (hex_to_text_of_bytes _ H).
    now rewrite text_of_bytes_of_text, string_of_chars.
  - now rewrite Hlen, length_map, length_chars.
  - now rewrite hex_to_decimal_digits, Hval.
Qed.

Lemma text_to_binary_map (text : string) :
  text_to_binary text = map d_to_b (map ord (chars text)).
Proof.
  unfold text_to_binary.
  rewrite (fold_left_snoc (fun i => d_to_b (t_to_d i))). cbn [app].
  now rewrite map_map.
Qed.

Lemma binary_to_text_ok (bl : list string) :
  (forall b, In b bl -> octet b) ->
  binary_to_text bl = Ok (string_of_list_ascii (map byte_char (map b_to_d bl))).
Proof.
  intros H. unfold binary_to_text.
  rewrite (validate_binary_list_ok bl H). cbn [bind].
  rewrite (for_in_append (fun b => one_char (byte_char (b_to_d b)))).
  - cbn [append]. now rewrite <- join_one_char, !map_map.
  - intros acc b Hb. cbv zeta. unfold d_to_t.
    now rewrite (chr_of_byte _ (b_to_d_octet b (H b Hb))).
Qed.

Lemma binary_to_hex_ok (bl : list string) :
  (forall b, In b bl -> octet b) ->
  binary_to_hex bl = Ok (join (map d_to_h (map b_to_d bl))).
Proof.
  intros H. unfold binary_to_hex.
  rewrite (validate_binary_list_ok bl H). cbn [bind].
  rewrite (fold_left_append (fun b => d_to_h (b_to_d b))). cbn [append].
  now rewrite map_map.
Qed.

(** X9. From text to binary and back: [text_to_binary] gives one octet per
    character and [binary_to_text] of the list is the text, for every text
    of code points 0..255. *)
Theorem text_binary_round_trip (text : string) :
  List.length (text_to_binary text) = String.length text
  /\ (forall b, In b (text_to_binary text) -> octet b)
  /\ binary_to_text (text_to_binary text) = Ok text.
Proof.
  rewrite text_to_binary_map.
  pose proof (bytes_of_text (chars text)) as H.
  assert (Hoct : forall b, In b (map d_to_b (map ord (chars text))) -> octet b).
  { intros b Hb. apply in_map_iff in Hb. destruct Hb as [d [<- Hd]].
    apply d_to_b_byte_octet, H, Hd. }
  split; [now rewrite !length_map, length_chars|]. split; [exact Hoct|].
  rewrite (binary_to_text_ok _ Hoct), (map_map d_to_b b_to_d).
  rewrite (map_id_on (fun d => b_to_d (d_to_b d)))
    by (intros d Hd; apply b_to_d_d_to_b, H, Hd).
  now rewrite text_of_bytes_of_text, string_of_chars.
Qed.

Lemma find_malformed_none (bl : list string) :
  find malformed_binary bl = None -> forall b, In b bl -> octet b.
Proof.
  intros Hf b Hb. apply malformed_binary_iff. exact (find_none _ _ Hf b Hb).
Qed.

(** X10. The binary operations go through decimal: on every list of strings
    [binary_to_hex] and [binary_to_text] return, or raise, what
    [binary_to_decimal] followed by [decimal_to_hex] (default mode) and by
    [decimal_to_text] return or raise; the range check of the second step
    never fires, the values of octets being bytes. *)
Theorem binary_operations_through_decimal (binary_list : list string) :
  binary_to_hex binary_list
  = (l <- binary_to_decimal binary_list ;; decimal_to_hex (DecList l) false)
  /\ binary_to_text binary_list
     = (l <- binary_to_decimal binary_list ;; decimal_to_text l).
Proof.
  destruct (find malformed_binary binary_list) as [b|] eqn:Hf.
  - unfold binary_to_hex, binary_to_text, binary_to_decimal.
    rewrite validate_binary_list_find, Hf. split; reflexivity.
  - pose proof (find_malformed_none _ Hf) as Hoct.
    assert (Hbytes : forall d, In d (map b_to_d binary_list) -> 0 <= d <= 255).
    { intros d Hd. apply in_map_iff in Hd. destruct Hd as [b [<- Hb]].
      apply b_to_d_octet, Hoct, Hb. }
    rewrite (binary_to_hex_ok _ Hoct), (binary_to_text_ok _ Hoct).
    rewrite (binary_to_decimal_ok _ Hoct). cbn [bind].
    now rewrite (decimal_to_hex_ok _ Hbytes), (decimal_to_text_ok _ Hbytes).
Qed.

(* ================================================================== *)
(** * Further properties: XOR *)
(* ================================================================== *)

(** One round of XOR on two byte values, checked on all pairs: the string
    [xor_b] returns is the binary string of the XOR, which is a byte. *)
Definition xor_octet_ok (a b : Z) : bool :=
  match xor_b (d_to_b a) (d_to_b b) with
  | Ok xored_binary => String.eqb xored_binary (d_to_b (Z.lxor a b))
  | Raise _ => false
  end
  && in_range (Z.lxor a b).

Lemma xor_octet_all :
  forallb (fun a => forallb (xor_octet_ok a) bytes) bytes = true.
Proof. vm_compute. reflexivity. Qed.

Lemma xor_b_bytes (a b : Z) :
  0 <= a <= 255 -> 0 <= b <= 255 ->
  xor_b (d_to_b a) (d_to_b b) = Ok (d_to_b (Z.lxor a b))
  /\ 0 <= Z.lxor a b <= 255.
Proof.
  intros Ha Hb.
  pose proof (forall_bytes _ xor_octet_all a Ha) as H. simpl in H.
  pose proof (forall_bytes _ H b Hb) as H'. unfold xor_octet_ok in H'.
  apply andb_true_iff in H'. destruct H' as [Hx Hr].
  split; [|now apply in_range_iff].
  destruct (xor_b (d_to_b a) (d_to_b b)) as [s|e]; [|discriminate].
  apply String.eqb_eq in Hx. now subst.
Qed.

(** X11. On two octets [xor_b] raises nothing and returns an octet, whose
    value is the bitwise XOR of the values of the two. *)
Theorem xor_b_octets (binary_a binary_b : string) :
  octet binary_a -> octet binary_b ->
  exists binary_c,
    xor_b binary_a binary_b = Ok binary_c
    /\ octet binary_c
    /\ b_to_d binary_c = Z.lxor (b_to_d binary_a) (b_to_d binary_b).
Proof.
  intros Ha Hb.
  pose proof (b_to_d_octet _ Ha) as Hva. pose proof (b_to_d_octet _ Hb) as Hvb.
  destruct (xor_b_bytes _ _ Hva Hvb) as [Hx Hr].
  rewrite (d_to_b_b_to_d _ Ha), (d_to_b_b_to_d _ Hb) in Hx.
  exists (d_to_b (Z.lxor (b_to_d binary_a) (b_to_d binary_b))).
  split; [exact Hx|]. split; [now apply d_to_b_byte_octet|].
  now apply b_to_d_d_to_b.
Qed.

Lemma xor_b_octets_witness :
  exists binary_c,
    xor_b "01000001" "00100000" = Ok binary_c
    /\ octet binary_c
    /\ b_to_d binary_c = Z.lxor (b_to_d "01000001") (b_to_d "00100000").
Proof.
  apply (xor_b_octets "01000001" "00100000");
    apply malformed_binary_iff; reflexivity.
Defined.

(** ** Lists *)

Lemma xor_lists_bytes (la lb : list Z) :
  (forall d, In d la -> 0 <= d <= 255) ->
  (forall d, In d lb -> 0 <= d <= 255) ->
  forall d, In d (xor_lists la lb) -> 0 <= d <= 255.
Proof.
  revert lb. induction la as [|a la IH]; intros [|b lb] Ha Hb d Hd;
    try (now destruct Hd).
  cbn [xor_lists] in Hd. destruct Hd as [<-|Hd].
  - apply (xor_b_bytes a b); [apply Ha | apply Hb]; now left.
  - apply (IH lb); [| |exact Hd]; intros x Hx; [apply Ha | apply Hb]; now right.
Qed.

Lemma xor_lists_comm (la lb : list Z) : xor_lists la lb = xor_lists lb la.
Proof.
  revert lb. induction la as [|a la IH]; intros [|b lb]; try reflexivity.
  simpl. now rewrite Z.lxor_comm, IH.
Qed.

Lemma xor_lists_twice (la key : list Z) :
  (List.length la <= List.length key)%nat ->
  xor_lists (xor_lists la key) key = la.
Proof.
  revert key. induction la as [|a la IH]; intros [|k key] H;
    try reflexivity; simpl in H; [lia|].
  simpl. rewrite Z.lxor_assoc, Z.lxor_nilpotent, Z.lxor_0_r.
  rewrite IH by lia. reflexivity.
Qed.

(** X12. XOR with the same key twice gives the message back: for byte lists
    with the key at least as long as the message, [xor_decimals] returns a
    list of bytes, and [xor_decimals] of that list and the key is the
    message. *)
Theorem xor_decimals_twice (message key : list Z) :
  (forall d, In d message -> 0 <= d <= 255) ->
  (forall d, In d key -> 0 <= d <= 255) ->
  (List.length message <= List.length key)%nat ->
  exists cipher,
    xor_decimals message key = Ok cipher
    /\ (forall d, In d cipher -> 0 <= d <= 255)
    /\ xor_decimals cipher key = Ok message.
Proof.
  intros Hm Hk Hlen. exists (xor_lists message key).
  pose proof (xor_lists_bytes _ _ Hm Hk) as Hc.
  split; [now apply xor_decimals_spec|]. split; [exact Hc|].
  rewrite (xor_decimals_spec _ _ Hc Hk). now rewrite xor_lists_twice.
Qed.

Lemma xor_decimals_twice_witness :
  exists cipher,
    xor_decimals [72; 105] [1; 2; 3] = Ok cipher
    /\ (forall d, In d cipher -> 0 <= d <= 255)
    /\ xor_decimals cipher [1; 2; 3] = Ok [72; 105].
Proof.
  apply (xor_decimals_twice [72; 105] [1; 2; 3]).
  - intros d Hd. simpl in Hd. intuition lia.
  - intros d Hd. simpl in Hd. intuition lia.
  - simpl. lia.
Defined.

(** X13. On byte lists [xor_decimals] does not depend on the order of its
    arguments. *)
Theorem xor_decimals_commutes (la lb : list Z) :
  (forall d, In d la -> 0 <= d <= 255) ->
  (forall d, In d lb -> 0 <= d <= 255) ->
  xor_decimals la lb = xor_decimals lb la.
Proof.
  intros Ha Hb.
  rewrite (xor_decimals_spec _ _ Ha Hb), (xor_decimals_spec _ _ Hb Ha).
  now rewrite xor_lists_comm.
Qed.

Lemma xor_decimals_commutes_witness :
  xor_decimals [65; 255; 7] [32; 15] = xor_decimals [32; 15] [65; 255; 7].
Proof.
  apply (xor_decimals_commutes [65; 255; 7] [32; 15]);
    intros d Hd; simpl in Hd; intuition lia.
Defined.

(** ** Text *)

(** The loop of [xor_text] from the index behind [pa] and [pb] on. *)
Lemma xor_text_loop (pa pb : list string) (la lb : list Z) (acc : list string) :
  List.length pa = List.length pb ->
  (forall d, In d la -> 0 <= d <= 255) ->
  (forall d, In d lb -> 0 <= d <= 255) ->
  for_in (seq (List.length pa) (Nat.min (List.length la) (List.length lb)))
    (fun binary_list_c i =>
       a <- item (pa ++ map d_to_b la)%list i ;;
       b <- item (pb ++ map d_to_b lb)%list i ;;
       c <- xor_b a b ;;
       Ok (binary_list_c ++ [c])%list)
    acc
  = Ok (acc ++ map d_to_b (xor_lists la lb))%list.
Proof.
  revert pa pb lb acc.
  induction la as [|a la IH]; intros pa pb lb acc Hlen Ha Hb.
  - simpl. now rewrite app_nil_r.
  - destruct lb as [|b lb]; [simpl; now rewrite app_nil_r|].
    cbn [List.length Nat.min seq for_in xor_lists map].
    rewrite item_middle. cbn [bind].
    rewrite Hlen at 1. rewrite item_middle. cbn [bind].
    destruct (xor_b_bytes a b) as [Hx _];
      [apply Ha; now left | apply Hb; now left |].
    rewrite Hx. cbn [bind].
    specialize (IH (pa ++ [d_to_b a])%list (pb ++ [d_to_b b])%list lb
                   (acc ++ [d_to_b (Z.lxor a b)])%list).
    rewrite !length_app, <- !app_assoc in IH. simpl in IH.
    rewrite Nat.add_1_r in IH.
    rewrite IH.
    + reflexivity.
    + lia.
    + intros d Hd. apply Ha. now right.
    + intros d Hd. apply Hb. now right.
Qed.

(** The code points of a text. *)
Definition code_points (text : string) : list Z := map ord (chars text).

Lemma xor_text_spec (text_a text_b : string) :
  xor_text text_a text_b
  = Ok (string_of_list_ascii
          (map byte_char (xor_lists (code_points text_a) (code_points text_b)))).
Proof.
  unfold xor_text, code_points. cbv zeta.
  rewrite !text_to_binary_map, !length_map, range_step1.
  pose proof (bytes_of_text (chars text_a)) as Ha.
  pose proof (bytes_of_text (chars text_b)) as Hb.
  pose proof (xor_text_loop [] [] _ _ [] eq_refl Ha Hb) as Hloop.
  cbn [List.length app] in Hloop. rewrite !length_map in Hloop.
  rewrite Hloop. cbn [bind].
  pose proof (xor_lists_bytes _ _ Ha Hb) as Hc.
  rewrite binary_to_text_ok.
  - rewrite (map_map d_to_b b_to_d).
    rewrite (map_id_on (fun d => b_to_d (d_to_b d))); [reflexivity|].
    intros d Hd. apply b_to_d_d_to_b, Hc, Hd.
  - intros b Hin. apply in_map_iff in Hin. destruct Hin as [d [<- Hd]].
    apply d_to_b_byte_octet, Hc, Hd.
Qed.

Lemma code_points_of_bytes (l : list Z) :
  (forall d, In d l -> 0 <= d <= 255) ->
  code_points (string_of_list_ascii (map byte_char l)) = l.
Proof.
  intros H. unfold code_points. rewrite chars_of_list, map_map.
  apply map_id_on. intros d Hd. apply ord_byte_char, H, Hd.
Qed.

(** X14. [xor_text] never raises on texts of code points 0..255: it returns
    the text whose code points are the XOR of the code points of the two
    texts, position by position, up to the end of the shorter one; it is
    what [xor_decimals] of the code points followed by [decimal_to_text]
    returns. *)
Theorem xor_text_code_points (text_a text_b : string) :
  exists text_c,
    xor_text text_a text_b = Ok text_c
    /\ String.length text_c
       = Nat.min (String.length text_a) (String.length text_b)
    /\ code_points text_c
       = xor_lists (code_points text_a) (code_points text_b)
    /\ (l <- xor_decimals (code_points text_a) (code_points text_b) ;;
        decimal_to_text l) = Ok text_c.
Proof.
  pose proof (bytes_of_text (chars text_a)) as Ha.
  pose proof (bytes_of_text (chars text_b)) as Hb.
  pose proof (xor_lists_bytes _ _ Ha Hb) as Hc.
  eexists. split; [apply xor_text_spec|]. split; [|split].
  - rewrite <- length_chars, chars_of_list, length_map, xor_lists_length.
    unfold code_points. now rewrite !length_map, !length_chars.
  - now apply code_points_of_bytes.
  - unfold code_points. rewrite (xor_decimals_spec _ _ Ha Hb). cbn [bind].
    now apply decimal_to_text_ok.
Qed.

(** X15. XOR of a text with the same key twice gives the text back, when the
    key is at least as long as the text. *)
Theorem xor_text_twice (text key : string) :
  (String.length text <= String.length key)%nat ->
  (cipher <- xor_text text key ;; xor_text cipher key) = Ok text.
Proof.
  intros Hlen. rewrite xor_text_spec. cbn [bind]. rewrite xor_text_spec.
  assert (Ha : forall d, In d (code_points text) -> 0 <= d <= 255)
    by apply bytes_of_text.
  assert (Hb : forall d, In d (code_points key) -> 0 <= d <= 255)
    by apply bytes_of_text.
  rewrite (code_points_of_bytes _ (xor_lists_bytes _ _ Ha Hb)).
  rewrite xor_lists_twice.
  - unfold code_points. now rewrite text_of_bytes_of_text, string_of_chars.
  - unfold code_points. now rewrite !length_map, !length_chars.
Qed.

Lemma xor_text_twice_witness :
  (cipher <- xor_text "Hi" "key" ;; xor_text cipher "key") = Ok "Hi".
Proof. apply (xor_text_twice "Hi" "key"). simpl. lia. Defined.

(* ================================================================== *)
(** * Further properties: the single-value mode *)
(* ================================================================== *)

Lemma hex_value_last_digit (c : ascii) (rest : string) (full : Z) :
  full = digit_value c ->
  hex_value (String c rest)
  = full * 16 ^ Z.of_nat (String.length rest) + hex_value rest.
Proof. intros ->. reflexivity. Qed.

Lemma hex_value_next_digit (c : ascii) (rest : string) (high full : Z) :
  full = 16 * high + digit_value c ->
  high * 16 ^ Z.of_nat (String.length (String c rest))
  + hex_value (String c rest)
  = full * 16 ^ Z.of_nat (String.length rest) + hex_value rest.
Proof.
  intros ->. cbn [hex_value String.length].
  rewrite Nat2Z.inj_succ, Z.pow_succ_r by lia. ring.
Qed.

(** The number the digits of [hex] denote. *)
Fixpoint of_pos_value (p : positive) (rest : string) {struct p} :
  hex_value (HexString.Raw.of_pos p rest)
  = Z.pos p * 16 ^ Z.of_nat (String.length rest) + hex_value rest.
Proof.
  do 4 try destruct p as [p|p|]; cbn [HexString.Raw.of_pos];
    first [ apply hex_value_last_digit; reflexivity
          | rewrite of_pos_value; apply hex_value_next_digit; reflexivity ].
Qed.

Lemma of_pos_all_hex (p : positive) :
  all_hex (HexString.Raw.of_pos p EmptyString) = true.
Proof. apply lower_hex_all_hex. now rewrite of_pos_lower. Qed.

Lemma d_to_h_value (n : Z) :
  0 <= n ->
  d_to_h n <> EmptyString /\ all_hex (d_to_h n) = true
  /\ hex_value (d_to_h n) = n.
Proof.
  intros Hn. destruct n as [|p|p]; [repeat split; discriminate| |lia].
  unfold d_to_h, hex, HexString.of_Z, HexString.of_pos.
  rewrite slice_from_2.
  pose proof (of_pos_all_hex p) as Hhex.
  pose proof (of_pos_value p EmptyString) as Hval.
  pose proof (of_pos_not_empty p EmptyString) as Hne.
  cbn [String.length hex_value Z.of_nat] in Hval.
  destruct (Nat.eqb _ 1).
  - split; [discriminate|]. split.
    + rewrite all_hex_app, Hhex. reflexivity.
    + cbn [append]. rewrite (hex_value_last_digit "0" _ 0 eq_refl), Hval. lia.
  - split; [exact Hne|]. split; [exact Hhex|]. rewrite Hval. simpl. lia.
Qed.

(** X16. The single-value mode round-trips every non-negative integer,
    whatever its size: [decimal_to_hex(n, True)] is a string of lowercase
    hex digits that [hex_to_decimal(., True)] parses back to [n]. *)
Theorem single_value_round_trip (n : Z) :
  0 <= n ->
  exists hex_string,
    decimal_to_hex (DecInt n) true = Ok hex_string
    /\ lower_hex_string hex_string = true
    /\ hex_to_decimal hex_string true = Ok (DecInt n).
Proof.
  intros Hn. exists (d_to_h n).
  destruct (d_to_h_value n Hn) as [Hne [Hhex Hval]].
  split; [reflexivity|]. split; [now apply d_to_h_nonneg|].
  unfold hex_to_decimal.
  rewrite (strip_0x_plain _ (all_hex_no_prefix _ Hhex)).
  now rewrite (int16_hex _ Hne Hhex), Hval.
Qed.

Lemma single_value_round_trip_witness :
  exists hex_string,
    decimal_to_hex (DecInt 1234567890123456789012345678901234567890) true
    = Ok hex_string
    /\ lower_hex_string hex_string = true
    /\ hex_to_decimal hex_string true
       = Ok (DecInt 1234567890123456789012345678901234567890).
Proof.
  apply (single_value_round_trip 1234567890123456789012345678901234567890).
  lia.
Defined.

Lemma int16_x (r : string) : int16 (String "x" r) = Raise ValueError.
Proof. destruct r; reflexivity. Qed.

(** X17. A negative number does not survive the single-value mode:
    [decimal_to_hex(n, True)] raises nothing and returns [hex(n)[2:]], the
    [x] of ["-0x"] followed by the digits, a string that [hex_to_decimal]
    (either mode), [hex_to_text] and [hex_to_binary] all refuse with the
    conversion error. *)
Theorem negative_single_value_unreadable (n : Z) :
  n < 0 ->
  exists digits,
    decimal_to_hex (DecInt n) true = Ok (String "x" digits)
    /\ lower_hex_string digits = true
    /\ hex_to_decimal (String "x" digits) true
       = Raise (invalid_hex (String "x" digits))
    /\ hex_to_decimal (String "x" digits) false
       = Raise (invalid_hex (String "x" digits))
    /\ (exists msg, hex_to_text (String "x" digits) = Raise (ConversionError msg))
    /\ (exists msg, hex_to_binary (String "x" digits) = Raise (ConversionError msg)).
Proof.
  intros Hn. destruct n as [|p|p]; try lia.
  exists (HexString.Raw.of_pos p EmptyString).
  assert (Hplain : strip_0x (String "x" (HexString.Raw.of_pos p EmptyString))
                   = String "x" (HexString.Raw.of_pos p EmptyString)).
  { apply strip_0x_plain. rewrite startswith_cons. reflexivity. }
  assert (Hbad : existsb (fun c => negb (pair_char c))
                   (chars (String "x" (HexString.Raw.of_pos p EmptyString)))
                 = true) by reflexivity.
  split; [|split; [apply of_pos_lower|split; [|split; [|split]]]].
  - unfold decimal_to_hex, d_to_h, hex, HexString.of_Z, HexString.of_pos.
    rewrite slice_from_2.
    destruct (HexString.Raw.of_pos p EmptyString) as [|c r] eqn:Hr;
      [now destruct (of_pos_not_empty p EmptyString)|].
    reflexivity.
  - unfold hex_to_decimal. rewrite Hplain. now rewrite int16_x.
  - unfold hex_to_decimal. rewrite Hplain, hex_pairs_pairs.
    now rewrite (hex_to_decimal_bad_pair _ Hbad).
  - unfold hex_to_text. cbn [String.length Nat.eqb].
    rewrite Hplain, hex_pairs_pairs.
    destruct (hex_to_text_bad_pair _ EmptyString Hbad) as [e [-> He]].
    now apply except_ValueError_conversion.
  - unfold hex_to_binary. cbv zeta. rewrite Hplain, hex_pairs_pairs.
    destruct (hex_to_binary_bad_pair _ [] Hbad) as [e [-> He]].
    now apply except_ValueError_conversion.
Qed.

Lemma negative_single_value_unreadable_witness :
  exists digits,
    decimal_to_hex (DecInt (-255)) true = Ok (String "x" digits)
    /\ lower_hex_string digits = true
    /\ hex_to_decimal (String "x" digits) true
       = Raise (invalid_hex (String "x" digits))
    /\ hex_to_decimal (String "x" digits) false
       = Raise (invalid_hex (String "x" digits))
    /\ (exists msg, hex_to_text (String "x" digits) = Raise (ConversionError msg))
    /\ (exists msg, hex_to_binary (String "x" digits) = Raise (ConversionError msg)).
Proof. apply (negative_single_value_unreadable (-255)). lia. Defined.

(* ================================================================== *)
(** * Further properties: the default mode of the hex operations *)
(* ================================================================== *)

(** What [int] returns on one character and on two, checked on all of
    them: a digit value, or a number from -15 to 255. *)
Definition single_range (a : ascii) : bool :=
  match int16 (String a EmptyString) with
  | Ok v => (0 <=? v) && (v <=? 15)
  | Raise _ => true
  end
  && implb (is_digit16 a) ((0 <=? digit_value a) && (digit_value a <=? 15)).

Definition pair_range (a b : ascii) : bool :=
  match int16 (String a (String b EmptyString)) with
  | Ok v => (-15 <=? v) && (v <=? 255)
  | Raise _ => true
  end.

Lemma single_range_all : forallb single_range all_ascii = true.
Proof. vm_compute. reflexivity. Qed.

Lemma pair_range_all :
  forallb (fun a => forallb (pair_range a) all_ascii) all_ascii = true.
Proof. vm_compute. reflexivity. Qed.

Lemma digit_value_range (a : ascii) :
  is_digit16 a = true -> 0 <= digit_value a <= 15.
Proof.
  intros Ha. pose proof (forall_ascii _ single_range_all a) as H.
  unfold single_range in H. apply andb_true_iff in H. destruct H as [_ H].
  rewrite Ha in H. simpl in H. apply andb_true_iff in H.
  rewrite !Z.leb_le in H. exact H.
Qed.

Lemma int16_pair_range (s p : string) (v : Z) :
  In p (pairs s) -> int16 p = Ok v -> -15 <= v <= 255.
Proof.
  induction s as [| a | a b s IH] using string_pair_ind; intros Hin Hv.
  - destruct Hin.
  - destruct Hin as [<-|[]].
    pose proof (forall_ascii _ single_range_all a) as H.
    unfold single_range in H. rewrite Hv in H.
    rewrite !andb_true_iff, !Z.leb_le in H. lia.
  - destruct Hin as [<-|Hin]; [|now apply IH].
    pose proof (forall_ascii _ pair_range_all a) as H. simpl in H.
    pose proof (forall_ascii _ H b) as H'. unfold pair_range in H'.
    rewrite Hv in H'. rewrite !andb_true_iff, !Z.leb_le in H'. lia.
Qed.

(** What the loop of [hex_to_decimal] returns, when it returns. *)
Lemma hex_decimal_loop_inv (ps : list string) (acc l : list Z) :
  for_in ps
    (fun decimal_list i => n <- int16 i ;; Ok (decimal_list ++ [n])%list) acc
  = Ok l ->
  exists vs,
    l = (acc ++ vs)%list /\ List.length vs = List.length ps
    /\ forall v, In v vs -> exists p, In p ps /\ int16 p = Ok v.
Proof.
  revert acc. induction ps as [|p ps IH]; intros acc H.
  - simpl in H. injection H as <-. exists []. rewrite app_nil_r.
    repeat split. intros v [].
  - cbn [for_in] in H. destruct (int16 p) as [n|e] eqn:Hp; [|discriminate H].
    cbn [bind] in H. destruct (IH _ H) as [vs [-> [Hlen Hvs]]].
    exists (n :: vs). rewrite <- app_assoc. split; [reflexivity|].
    split; [simpl; now rewrite Hlen|].
    intros v [<-|Hv].
    + exists p. split; [now left | exact Hp].
    + destruct (Hvs v Hv) as [q [Hq Hqv]]. exists q. split; [now right | exact Hqv].
Qed.

(** X18. Whatever the default mode of [hex_to_decimal] returns, it has one
    element per pair of the string without its prefix (half its length,
    rounded up), and every element lies between -15 and 255: no element
    exceeds a byte, but the range 0..255 is not enforced below, a pair made
    of a sign and a digit giving a negative element (["-f"] gives
    [[-15]]). *)
Theorem hex_to_decimal_elements (hex_string : string) (decimal_list : list Z) :
  hex_to_decimal hex_string false = Ok (DecList decimal_list) ->
  List.length decimal_list
  = Nat.div (String.length (strip_0x hex_string) + 1) 2
  /\ (forall d, In d decimal_list -> -15 <= d <= 255)
  /\ hex_to_decimal "-f" false = Ok (DecList [-15]).
Proof.
  intros H. split; [|split; [|reflexivity]].
  - unfold hex_to_decimal in H. rewrite hex_pairs_pairs in H.
    destruct (for_in _ _ _) as [l|e] eqn:Hloop;
      [|destruct e; discriminate H].
    cbn in H. injection H as <-.
    destruct (hex_decimal_loop_inv _ _ _ Hloop) as [vs [-> [Hlen _]]].
    cbn [app]. now rewrite Hlen, pairs_length.
  - unfold hex_to_decimal in H. rewrite hex_pairs_pairs in H.
    destruct (for_in _ _ _) as [l|e] eqn:Hloop;
      [|destruct e; discriminate H].
    cbn in H. injection H as <-.
    destruct (hex_decimal_loop_inv _ _ _ Hloop) as [vs [-> [_ Hvs]]].
    intros d Hd. cbn [app] in Hd. destruct (Hvs d Hd) as [p [Hp Hv]].
    exact (int16_pair_range _ p d Hp Hv).
Qed.

Lemma hex_to_decimal_elements_witness :
  List.length [171; 12] = Nat.div (String.length (strip_0x "0xabc") + 1) 2
  /\ (forall d, In d [171; 12] -> -15 <= d <= 255)
  /\ hex_to_decimal "-f" false = Ok (DecList [-15]).
Proof. apply (hex_to_decimal_elements "0xabc" [171; 12]). reflexivity. Defined.

(** ** Strings of hex digits *)

Lemma pair_values_bytes (s : string) :
  all_hex s = true -> forall d, In d (pair_values s) -> 0 <= d <= 255.
Proof.
  induction s as [| a | a b s IH] using string_pair_ind; intros H d Hd.
  - destruct Hd.
  - apply all_hex_cons in H. destruct H as [Ha _].
    destruct Hd as [<-|[]]. pose proof (digit_value_range a Ha). lia.
  - apply all_hex_cons in H. destruct H as [Ha H].
    apply all_hex_cons in H. destruct H as [Hb H].
    destruct Hd as [<-|Hd]; [|now apply IH].
    pose proof (digit_value_range a Ha). pose proof (digit_value_range b Hb).
    lia.
Qed.

Lemma in_byte_range (d : Z) : 0 <= d <= 255 -> (d <? 0) || (d >? 255) = false.
Proof.
  intros H. apply orb_false_iff. split; [apply Z.ltb_ge; lia|].
  rewrite Z.gtb_ltb. apply Z.ltb_ge. lia.
Qed.

Lemma hex_text_loop_digits (s : string) (acc : string) :
  all_hex s = true ->
  for_in (pairs s)
    (fun text i =>
       temp_decimal <- int16 i ;;
       if (temp_decimal <? 0) || (temp_decimal >? 255)
       then Raise (hex_out_of_range i)
       else c <- chr temp_decimal ;; Ok (text ++ c))
    acc
  = Ok (acc ++ string_of_list_ascii (map byte_char (pair_values s))).
Proof.
  revert acc.
  induction s as [| a | a b s IH] using string_pair_ind; intros acc H.
  - simpl. now rewrite append_nil_r.
  - pose proof (pair_values_bytes _ H (digit_value a) (or_introl eq_refl)) as Hr.
    apply all_hex_cons in H. destruct H as [Ha _].
    cbn [pairs for_in pair_values map string_of_list_ascii].
    rewrite (int16_digit a _ (digit16_value a Ha)). cbn [bind].
    rewrite (in_byte_range _ Hr), (chr_of_byte _ Hr). reflexivity.
  - pose proof (pair_values_bytes _ H _ (or_introl eq_refl)) as Hr.
    apply all_hex_cons in H. destruct H as [Ha H].
    apply all_hex_cons in H. destruct H as [Hb H].
    cbn [pairs for_in pair_values map string_of_list_ascii].
    rewrite (int16_two_digits a b _ _ (digit16_value a Ha) (digit16_value b Hb)).
    cbn [bind]. rewrite (in_byte_range _ Hr), (chr_of_byte _ Hr). cbn [bind].
    rewrite IH by assumption. unfold one_char. now rewrite append_assoc.
Qed.

Lemma hex_binary_loop_digits (s : string) (acc : list string) :
  all_hex s = true ->
  for_in (pairs s)
    (fun binary_list hex_pair =>
       decimal <- int16 hex_pair ;;
       if (decimal <? 0) || (decimal >? 255)
       then Raise (hex_out_of_range hex_pair)
       else Ok (binary_list ++ [d_to_b decimal])%list)
    acc
  = Ok (acc ++ map d_to_b (pair_values s))%list.
Proof.
  revert acc.
  induction s as [| a | a b s IH] using string_pair_ind; intros acc H.
  - simpl. now rewrite app_nil_r.
  - pose proof (pair_values_bytes _ H (digit_value a) (or_introl eq_refl)) as Hr.
    apply all_hex_cons in H. destruct H as [Ha _].
    cbn [pairs for_in pair_values map].
    rewrite (int16_digit a _ (digit16_value a Ha)). cbn [bind].
    now rewrite (in_byte_range _ Hr).
  - pose proof (pair_values_bytes _ H _ (or_introl eq_refl)) as Hr.
    apply all_hex_cons in H. destruct H as [Ha H].
    apply all_hex_cons in H. destruct H as [Hb H].
    cbn [pairs for_in pair_values map].
    rewrite (int16_two_digits a b _ _ (digit16_value a Ha) (digit16_value b Hb)).
    cbn [bind]. rewrite (in_byte_range _ Hr). cbn [bind].
    rewrite IH by assumption. now rewrite <- app_assoc.
Qed.

Lemma hex_to_text_digits (s : string) :
  all_hex s = true ->
  hex_to_text s = Ok (string_of_list_ascii (map byte_char (pair_values s))).
Proof.
  intros H. unfold hex_to_text.
  destruct s as [|c s]; [reflexivity|]. cbn [String.length Nat.eqb].
  rewrite (strip_0x_plain _ (all_hex_no_prefix _ H)), hex_pairs_pairs.
  now rewrite (hex_text_loop_digits _ EmptyString H).
Qed.

Lemma hex_to_binary_digits (s : string) :
  all_hex s = true -> hex_to_binary s = Ok (map d_to_b (pair_values s)).
Proof.
  intros H. unfold hex_to_binary. cbv zeta.
  rewrite (strip_0x_plain _ (all_hex_no_prefix _ H)), hex_pairs_pairs.
  now rewrite (hex_binary_loop_digits _ [] H).
Qed.

(** X19. Every string of hex digits, of either case and of any length (the
    empty one included), is accepted by the three hex operations in the
    default mode: [hex_to_decimal] returns a list of bytes, and
    [hex_to_text] and [hex_to_binary] return what [decimal_to_text] and
    [decimal_to_binary] return for that list. *)
Theorem hex_operations_through_decimal (s : string) :
  all_hex s = true ->
  exists l,
    hex_to_decimal s false = Ok (DecList l)
    /\ (forall d, In d l -> 0 <= d <= 255)
    /\ hex_to_text s = decimal_to_text l
    /\ hex_to_binary s = decimal_to_binary l.
Proof.
  intros H. exists (pair_values s).
  pose proof (pair_values_bytes s H) as Hb.
  split; [now apply hex_to_decimal_digits|]. split; [exact Hb|].
  split.
  - now rewrite hex_to_text_digits, decimal_to_text_ok.
  - now rewrite hex_to_binary_digits, decimal_to_binary_ok.
Qed.

Lemma hex_operations_through_decimal_witness :
  exists l,
    hex_to_decimal "48656C6c6f7" false = Ok (DecList l)
    /\ (forall d, In d l -> 0 <= d <= 255)
    /\ hex_to_text "48656C6c6f7" = decimal_to_text l
    /\ hex_to_binary "48656C6c6f7" = decimal_to_binary l.
Proof. apply (hex_operations_through_decimal "48656C6c6f7"). reflexivity. Defined.

(** ** Case of the digits *)

(** The lower case of a character and of a string ([A]..[Z] to [a]..[z]). *)
Definition lower_char (c : ascii) : ascii :=
  let n := N_of_ascii c in
  if ((65 <=? n) && (n <=? 90))%N then ascii_of_N (n + 32) else c.

Fixpoint lower (s : string) : string :=
  match s with
  | EmptyString => EmptyString
  | String c s' => String (lower_char c) (lower s')
  end.

Definition lower_char_ok (c : ascii) : bool :=
  Bool.eqb (is_digit16 (lower_char c)) (is_digit16 c)
  && (digit_value (lower_char c) =? digit_value c).

Lemma lower_char_all : forallb lower_char_ok all_ascii = true.
Proof. vm_compute. reflexivity. Qed.

Lemma lower_char_digit (c : ascii) :
  is_digit16 (lower_char c) = is_digit16 c
  /\ digit_value (lower_char c) = digit_value c.
Proof.
  pose proof (forall_ascii _ lower_char_all c) as H. unfold lower_char_ok in H.
  apply andb_true_iff in H. destruct H as [H1 H2].
  split; [now apply Bool.eqb_prop | now apply Z.eqb_eq].
Qed.

Lemma lower_length (s : string) : String.length (lower s) = String.length s.
Proof. induction s as [|c s IH]; simpl; [reflexivity | now rewrite IH]. Qed.

Lemma lower_all_hex (s : string) : all_hex (lower s) = all_hex s.
Proof.
  induction s as [|c s IH]; [reflexivity|].
  unfold all_hex in *. cbn [lower chars list_ascii_of_string forallb].
  unfold chars in IH. rewrite IH. now rewrite (proj1 (lower_char_digit c)).
Qed.

Lemma lower_pair_values (s : string) : pair_values (lower s) = pair_values s.
Proof.
  induction s as [| a | a b s IH] using string_pair_ind; try reflexivity.
  - cbn [lower pair_values]. now rewrite (proj2 (lower_char_digit a)).
  - cbn [lower pair_values].
    now rewrite IH, (proj2 (lower_char_digit a)), (proj2 (lower_char_digit b)).
Qed.

Lemma lower_hex_value (s : string) : hex_value (lower s) = hex_value s.
Proof.
  induction s as [|c s IH]; [reflexivity|].
  cbn [lower hex_value]. now rewrite IH, lower_length, (proj2 (lower_char_digit c)).
Qed.

Lemma hex_to_decimal_single_digits (s : string) :
  all_hex s = true ->
  hex_to_decimal s true
  = match s with
    | EmptyString => Raise (invalid_hex EmptyString)
    | _ => Ok (DecInt (hex_value s))
    end.
Proof.
  intros H. destruct s as [|c s]; [reflexivity|].
  unfold hex_to_decimal.
  rewrite (strip_0x_plain _ (all_hex_no_prefix _ H)).
  now rewrite (int16_hex (String c s) ltac:(discriminate) H).
Qed.

Lemma lower_results (s : string) :
  all_hex s = true ->
  hex_to_decimal (lower s) false = hex_to_decimal s false
  /\ hex_to_decimal (lower s) true = hex_to_decimal s true
  /\ hex_to_text (lower s) = hex_to_text s
  /\ hex_to_binary (lower s) = hex_to_binary s.
Proof.
  intros H. assert (Hl : all_hex (lower s) = true) by now rewrite lower_all_hex.
  rewrite !hex_to_decimal_digits, !hex_to_text_digits, !hex_to_binary_digits,
    !hex_to_decimal_single_digits by assumption.
  rewrite lower_pair_values, lower_hex_value.
  repeat split. now destruct s.
Qed.

(** X20. The hex operations do not tell the case of the digits: two strings
    of hex digits that differ in case only ([lower] makes them equal) give
    the same result in [hex_to_decimal] (both modes), [hex_to_text] and
    [hex_to_binary]. *)
Theorem hex_case_insensitive (s t : string) :
  all_hex s = true -> lower s = lower t ->
  hex_to_decimal s false = hex_to_decimal t false
  /\ hex_to_decimal s true = hex_to_decimal t true
  /\ hex_to_text s = hex_to_text t
  /\ hex_to_binary s = hex_to_binary t.
Proof.
  intros Hs Heq.
  assert (Ht : all_hex t = true)
    by now rewrite <- lower_all_hex, <- Heq, lower_all_hex.
  destruct (lower_results s Hs) as [S1 [S2 [S3 S4]]].
  destruct (lower_results t Ht) as [T1 [T2 [T3 T4]]].
  rewrite <- S1, <- S2, <- S3, <- S4, <- T1, <- T2, <- T3, <- T4, Heq.
  repeat split.
Qed.

Lemma hex_case_insensitive_witness :
  hex_to_decimal "4A6f" false = hex_to_decimal "4a6F" false
  /\ hex_to_decimal "4A6f" true = hex_to_decimal "4a6F" true
  /\ hex_to_text "4A6f" = hex_to_text "4a6F"
  /\ hex_to_binary "4A6f" = hex_to_binary "4a6F".
Proof. apply (hex_case_insensitive "4A6f" "4a6F"); reflexivity. Defined.

(** ** The width of [d_to_h] *)

(** X21. [d_to_h] pads to two digits and never cuts: for a non-negative [n]
    the string has at least two characters, and exactly two if and only if
    [n] is a byte. *)
Theorem d_to_h_width (n : Z) :
  0 <= n ->
  (2 <= String.length (d_to_h n))%nat
  /\ (String.length (d_to_h n) = 2%nat <-> n <= 255).
Proof.
  intros Hn. destruct (d_to_h_value n Hn) as [Hne [Hhex Hval]].
  assert (Hlen : (2 <= String.length (d_to_h n))%nat).
  { destruct n as [|p|p]; [simpl; lia| |lia].
    unfold d_to_h, hex, HexString.of_Z, HexString.of_pos.
    rewrite slice_from_2.
    destruct (HexString.Raw.of_pos p EmptyString) as [|c [|c' r]] eqn:Hr.
    - now destruct (of_pos_not_empty p EmptyString).
    - simpl. lia.
    - simpl. lia. }
  split; [exact Hlen|]. split.
  - intros H2. destruct (d_to_h n) as [|a [|b [|c r]]]; try discriminate H2.
    apply all_hex_cons in Hhex. destruct Hhex as [Ha Hhex].
    apply all_hex_cons in Hhex. destruct Hhex as [Hb _].
    pose proof (digit_value_range a Ha). pose proof (digit_value_range b Hb).
    cbn [hex_value String.length Z.of_nat] in Hval.
    change (16 ^ Z.of_nat 1) with 16 in Hval. change (16 ^ 0) with 1 in Hval.
    lia.
  - intros Hb. destruct (d_to_h_byte n (conj Hn Hb)) as [a [b [-> _]]].
    reflexivity.
Qed.

Lemma d_to_h_width_witness :
  (2 <= String.length (d_to_h 4095))%nat
  /\ (String.length (d_to_h 4095) = 2%nat <-> 4095 <= 255).
Proof. apply (d_to_h_width 4095). lia. Defined.

(* ================================================================== *)
(** * Further properties: what the checks report, and text through decimal *)
(* ================================================================== *)

Lemma find_first_out_of_range (front back : list Z) (d : Z) :
  (forall x, In x front -> 0 <= x <= 255) -> d < 0 \/ 255 < d ->
  find out_of_range (front ++ d :: back)%list = Some d.
Proof.
  intros Hf Hd. induction front as [|x front IH]; simpl.
  - apply out_of_range_iff in Hd. now rewrite Hd.
  - assert (Hx : out_of_range x = false).
    { destruct (out_of_range x) eqn:E; [|reflexivity].
      apply out_of_range_iff in E. specialize (Hf x (or_introl eq_refl)). lia. }
    rewrite Hx. apply IH. intros y Hy. apply Hf. now right.
Qed.

(** X22. The range check reports the first value out of range: for a list
    whose elements before [d] are bytes and where [d] is not, the decimal
    operations raise, whatever follows [d], what the check raises for [d]:
    the conversion error whose message ends with [d] in decimal when [d]
    has at most 4300 digits (its absolute value is below [10 ** 4300]), and
    otherwise the [ValueError] of [str], which the f-string of the message
    meets first. [xor_decimals] checks its first list before its second. *)
Theorem first_out_of_range_reported (front back : list Z) (d : Z) :
  (forall x, In x front -> 0 <= x <= 255) -> d < 0 \/ 255 < d ->
  decimal_to_text (front ++ d :: back) = Raise (range_error d)
  /\ decimal_to_binary (front ++ d :: back) = Raise (range_error d)
  /\ decimal_to_hex (DecList (front ++ d :: back)) false
     = Raise (range_error d)
  /\ (forall other,
        xor_decimals (front ++ d :: back) other = Raise (range_error d))
  /\ (forall other, (forall x, In x other -> 0 <= x <= 255) ->
        xor_decimals other (front ++ d :: back) = Raise (range_error d))
  /\ (Z.abs d < 10 ^ 4300 ->
      range_error d
      = ConversionError
          ("Decimal value must be between 0-255: " ++ decimal_numeral d))
  /\ (10 ^ 4300 <= Z.abs d -> range_error d = ValueError)
  /\ decimal_numeral 256 = "256" /\ decimal_numeral (-1) = "-1".
Proof.
  intros Hf Hd.
  assert (Hv : _validate_decimal_range (front ++ d :: back)
               = Raise (range_error d)).
  { rewrite validate_decimal_range_find.
    now rewrite (find_first_out_of_range front back d Hf Hd). }
  unfold decimal_to_text, decimal_to_binary, decimal_to_hex, xor_decimals.
  rewrite Hv.
  do 4 (split; [reflexivity|]).
  split; [intros other Ho; now rewrite (validate_decimal_range_ok other Ho)|].
  split; [apply range_error_small|]. split; [apply range_error_huge|].
  split; reflexivity.
Qed.

Lemma first_out_of_range_reported_witness :
  decimal_to_text ([65; 66] ++ 300 :: [-1; 67]) = Raise (range_error 300)
  /\ decimal_to_binary ([65; 66] ++ 300 :: [-1; 67]) = Raise (range_error 300)
  /\ decimal_to_hex (DecList ([65; 66] ++ 300 :: [-1; 67])) false
     = Raise (range_error 300)
  /\ (forall other,
        xor_decimals ([65; 66] ++ 300 :: [-1; 67]) other
        = Raise (range_error 300))
  /\ (forall other, (forall x, In x other -> 0 <= x <= 255) ->
        xor_decimals other ([65; 66] ++ 300 :: [-1; 67])
        = Raise (range_error 300))
  /\ (Z.abs 300 < 10 ^ 4300 ->
      range_error 300
      = ConversionError
          ("Decimal value must be between 0-255: " ++ decimal_numeral 300))
  /\ (10 ^ 4300 <= Z.abs 300 -> range_error 300 = ValueError)
  /\ decimal_numeral 256 = "256" /\ decimal_numeral (-1) = "-1".
Proof.
  apply (first_out_of_range_reported [65; 66] [-1; 67] 300).
  - intros x Hx. simpl in Hx. intuition lia.
  - lia.
Defined.

(** X23. On a text of code points 0..255, [text_to_hex] and
    [text_to_binary] convert every character, line feeds at the ends
    included, while [text_to_decimal] strips those: going through
    [text_to_decimal] gives the hex and the binary of the stripped text.
    For the text of one line feed the direct conversion gives ["0a"] and
    the one through decimal the empty string. (A character above 255 is
    outside this model of [str]: there the range check of the decimal
    operations raises, while [text_to_hex] and [text_to_binary] have
    none.) *)
Theorem text_operations_through_decimal (text : string) :
  decimal_to_hex (DecList (text_to_decimal text)) false
  = Ok (text_to_hex (strip nl_set text))
  /\ decimal_to_binary (text_to_decimal text)
     = Ok (text_to_binary (strip nl_set text))
  /\ text_to_hex nl_set = "0a"
  /\ decimal_to_hex (DecList (text_to_decimal nl_set)) false = Ok EmptyString.
Proof.
  split; [|split; [|split; reflexivity]].
  - rewrite text_to_decimal_map, text_to_hex_join.
    apply decimal_to_hex_ok, bytes_of_text.
  - rewrite text_to_decimal_map, text_to_binary_map.
    apply decimal_to_binary_ok, bytes_of_text.
Qed.
